(** * magic-array: an array with validation, change notification and an
      undo/redo history

    A shallow embedding of [magicArray] (the factory function of the
    repository) and of the statements its specification makes about the
    history state machine.

    The factory closes over four mutable variables: [items] (the live array),
    [history] (an array of entries), [historyIndex] (the cursor) and
    [validationFn].  JavaScript arrays are objects: [items = history[i].items]
    makes the live variable and a history entry share one array.  The model
    therefore keeps arrays in a store and lets [items] and every entry hold a
    reference into it. *)

From Stdlib Require Import ZArith String List Lia Bool.
From stdpp Require Import base list strings pretty.

Local Open Scope Z_scope.

(** ** Element values

    The element type [T] of the source is erased at run time.  Elements are
    modelled as JavaScript primitives.  The numbers are the integers
    ([VNum]; [VNum 0] is positive zero), negative zero, [NaN] and the two
    infinities; fractions are not modelled.  [VUndefined] is needed: reading
    an array past its end and popping an empty array both give [undefined]. *)

Inductive value : Type :=
| VUndefined
| VNull
| VBool (b : bool)
| VNum (n : Z)
| VStr (s : string)
| VNegZero
| VNaN
| VInfinity (negative : bool).

#[global] Instance value_eq_dec : EqDecision value.
Proof. solve_decision. Defined.

(** [Number.isNaN]. *)
Definition is_nan (v : value) : bool :=
  match v with
  | VNaN => true
  | _ => false
  end.

(** The two zeros. *)
Definition is_zero (v : value) : bool :=
  match v with
  | VNum 0 | VNegZero => true
  | _ => false
  end.

(** [a !== b] on primitives: [NaN] differs from everything, itself included,
    and the two zeros do not differ. *)
Definition strict_neq (a b : value) : bool :=
  match a, b with
  | VNaN, _ | _, VNaN => true
  | VNegZero, VNum 0 | VNum 0, VNegZero => false
  | _, _ => negb (bool_decide (a = b))
  end.

(** [ToString], used by the default sort order. *)
Definition to_string (v : value) : string :=
  match v with
  | VUndefined => "undefined"
  | VNull => "null"
  | VBool true => "true"
  | VBool false => "false"
  | VNum n => pretty n
  | VStr s => s
  | VNegZero => "0"
  | VNaN => "NaN"
  | VInfinity false => "Infinity"
  | VInfinity true => "-Infinity"
  end.

(** ** The built-in array methods the source calls

    Arrays are dense lists (holes inside an items array are not modelled).
    Index arguments are integers; a negative index counts from the end. *)

Module JsArray.

Definition len {A} (l : list A) : Z := Z.of_nat (length l).

(** [l[i]]: [None] stands for [undefined]. *)
Definition get {A} (l : list A) (i : Z) : option A :=
  if i <? 0 then None else l !! Z.to_nat i.

(** A relative index clamped into [0, len]. *)
Definition relative (n k : Z) : Z :=
  if k <? 0 then Z.max (n + k) 0 else Z.min k n.

Definition ztake {A} (k : Z) (l : list A) : list A := take (Z.to_nat k) l.
Definition zdrop {A} (k : Z) (l : list A) : list A := drop (Z.to_nat k) l.

(** [l.pop()]: the removed element and what is left. *)
Definition pop (l : list value) : value * list value :=
  match last l with
  | Some x => (x, take (length l - 1)%nat l)
  | None => (VUndefined, [])
  end.

(** [l.shift()]. *)
Definition shift (l : list value) : value * list value :=
  match l with
  | x :: l' => (x, l')
  | [] => (VUndefined, [])
  end.

(** [l.splice(start, deleteCount, ...add)]: the removed elements and the
    array afterwards. *)
Definition splice {A} (start deleteCount : Z) (add : list A) (l : list A)
  : list A * list A :=
  let s := relative (len l) start in
  let dc := Z.min (Z.max deleteCount 0) (len l - s) in
  (ztake dc (zdrop s l), ztake s l ++ add ++ zdrop (s + dc) l).

(** [l.splice(start)]: everything from [start] on is removed. *)
Definition splice_from {A} (start : Z) (l : list A) : list A * list A :=
  let s := relative (len l) start in
  (zdrop s l, ztake s l).

(** [l.fill(v, start, end)]. *)
Definition fill (v : value) (start end_ : option Z) (l : list value)
  : list value :=
  let s := relative (len l) (default 0 start) in
  let e := relative (len l) (default (len l) end_) in
  imap (fun i x => if (s <=? Z.of_nat i) && (Z.of_nat i <? e) then v else x) l.

(** [l.copyWithin(target, start, end)]: the source range is read before
    anything is written. *)
Definition copyWithin (target start : Z) (end_ : option Z) (l : list value)
  : list value :=
  let to := relative (len l) target in
  let from := relative (len l) start in
  let final := relative (len l) (default (len l) end_) in
  let count := Z.min (final - from) (len l - to) in
  if 0 <? count
  then ztake to l ++ ztake count (zdrop from l) ++ zdrop (to + count) l
  else l.

(** The comparison [sort] uses: [undefined] goes last and never reaches the
    comparator; without a comparator elements are compared as strings. *)
Definition sortCompare (compareFn : option (value -> value -> Z))
  (x y : value) : Z :=
  match x, y with
  | VUndefined, VUndefined => 0
  | VUndefined, _ => 1
  | _, VUndefined => -1
  | _, _ =>
    match compareFn with
    | Some f => f x y
    | None =>
      match String.compare (to_string x) (to_string y) with
      | Lt => -1
      | Eq => 0
      | Gt => 1
      end
    end
  end.

Fixpoint insert_sorted (cmp : value -> value -> Z) (x : value)
  (l : list value) : list value :=
  match l with
  | [] => [x]
  | y :: l' => if cmp x y <=? 0 then x :: l else y :: insert_sorted cmp x l'
  end.

(** [l.sort(compareFn)].  The language fixes the result only for a
    consistent comparator, and requires the sort to be stable; a stable
    insertion sort is taken as the algorithm. *)
Definition sort (compareFn : option (value -> value -> Z)) (l : list value)
  : list value :=
  foldr (insert_sorted (sortCompare compareFn)) [] l.

End JsArray.

(** ** The array store *)

(** References are positions in the store; a fresh array goes at the end. *)
Abbreviation loc := nat.
Abbreviation Heap := (list (list value)).

(** A fresh array holding [a]: [[...a]] and array literals. *)
Definition alloc (h : Heap) (a : list value) : Heap * loc :=
  (h ++ [a], length h).

(** The contents of the array at [r].  Every reference the program holds
    comes from [alloc] (see [store_ok] below), so the default is never read. *)
Definition read (h : Heap) (r : loc) : list value := default [] (h !! r).

Definition write (h : Heap) (r : loc) (a : list value) : Heap := <[r := a]> h.

(** ** Checkpoints, history entries, notifications *)

Module Checkpoint.
(** [{ label?: string; items: T[] }].  A checkpoint's array is created by
    [[...items]] and only ever read through a copy, so it is kept by value. *)
Record t := mk { label : option string; items : list value }.
End Checkpoint.

Module HistoryEntry.
(** [{ items: T[]; checkpoints: Checkpoint<T>[] }]; [items] is a reference. *)
Record t := mk { items : loc; checkpoints : list Checkpoint.t }.
End HistoryEntry.

#[global] Instance checkpoint_eq_dec : EqDecision Checkpoint.t.
Proof. solve_decision. Defined.

#[global] Instance entry_eq_dec : EqDecision HistoryEntry.t.
Proof. solve_decision. Defined.

(** What a listener is handed as second argument. *)
Inductive Payload : Type :=
| PCopy (l : list value)                          (* [[...items]] *)
| PItems (r : loc)                                (* an items array *)
| PHistory (h : list (option HistoryEntry.t))     (* the history array *)
| PCheckpoints (cps : list Checkpoint.t)          (* an entry's checkpoints *)
| PCheckpoint (c : option Checkpoint.t).          (* a checkpoint, or undefined *)

Definition Notification : Type := string * Payload.

(** ** The state of one instance

    A slot of [history] is [None] when it holds no entry object: the hole
    that [history.length = 1] leaves in an empty array, or a [null] that was
    imported.  [delivered] is the sequence of calls every registered listener
    has received, oldest first. *)

Record State := mkState {
  heap : Heap;
  items : loc;
  history : list (option HistoryEntry.t);
  historyIndex : Z;
  validationFn : option (value -> bool);
  delivered : list Notification;
}.

Definition set_heap (h : Heap) (st : State) : State :=
  mkState h (items st) (history st) (historyIndex st) (validationFn st) (delivered st).
Definition set_items (r : loc) (st : State) : State :=
  mkState (heap st) r (history st) (historyIndex st) (validationFn st) (delivered st).
Definition set_history (hs : list (option HistoryEntry.t)) (st : State) : State :=
  mkState (heap st) (items st) hs (historyIndex st) (validationFn st) (delivered st).
Definition set_historyIndex (i : Z) (st : State) : State :=
  mkState (heap st) (items st) (history st) i (validationFn st) (delivered st).
Definition set_validationFn (f : option (value -> bool)) (st : State) : State :=
  mkState (heap st) (items st) (history st) (historyIndex st) f (delivered st).
Definition deliver (n : Notification) (st : State) : State :=
  mkState (heap st) (items st) (history st) (historyIndex st) (validationFn st)
          (delivered st ++ [n]).

(** The contents of the live array. *)
Definition live (st : State) : list value := read (heap st) (items st).

(** In-place mutation of the live array. *)
Definition mutate_items (f : list value -> list value) (st : State) : State :=
  set_heap (write (heap st) (items st) (f (live st))) st.

(** [items = [...a]]. *)
Definition assign_copy (a : list value) (st : State) : State :=
  let '(h, r) := alloc (heap st) a in set_items r (set_heap h st).

(** [magicArray(initialItems, validationFn)]. *)
Definition magicArray (initialItems : list value)
  (validationFn : option (value -> bool)) : State :=
  let '(h1, r_items) := alloc [] initialItems in
  let '(h2, r_entry) := alloc h1 (read h1 r_items) in
  mkState h2 r_items [Some (HistoryEntry.mk r_entry [])] 0 validationFn [].

(** [notifyListeners(event)]: every listener gets a copy of the live items. *)
Definition notifyListeners (event : string) (st : State) : State :=
  deliver (event, PCopy (live st)) st.

(** [notifySubscribers(action, payload)]. *)
Definition notifySubscribers (action : string) (p : Payload) (st : State) : State :=
  deliver (action, p) st.


(** ** Array actions

    What a call returns: nothing, a number, an element, a new array, or the
    live array itself (by reference). *)

Inductive Result : Type :=
| RUndefined
| RNumber (n : Z)
| RValue (v : value)
| RArray (l : list value)
| RItems (r : loc)
| RBool (b : bool)
| RCheckpoints (cps : list Checkpoint.t).

(** [if (validationFn) itemsToPush = itemsToPush.filter(validationFn)]. *)
Definition validated (st : State) (itemsToPush : list value) : list value :=
  match validationFn st with
  | Some f => List.filter f itemsToPush
  | None => itemsToPush
  end.

(** The methods of the [arrayActions] object literal, before any of them is
    wrapped. *)
Module ArrayActions.

Definition batchPush (itemsToPush : list value) (st : State) : Result * State :=
  let itemsToPush := validated st itemsToPush in
  let st := mutate_items (fun l => l ++ itemsToPush) st in
  let st := notifyListeners "batchAdd" st in
  (RUndefined, st).

Definition setValidation (fn : value -> bool) (st : State) : Result * State :=
  (RUndefined, set_validationFn (Some fn) st).

Definition push (itemsToPush : list value) (st : State) : Result * State :=
  let itemsToPush := validated st itemsToPush in
  let st := mutate_items (fun l => l ++ itemsToPush) st in
  let st := notifyListeners "add" st in
  (RNumber (JsArray.len (live st)), st).

Definition pop (st : State) : Result * State :=
  let poppedItem := fst (JsArray.pop (live st)) in
  let st := mutate_items (fun l => snd (JsArray.pop l)) st in
  let st := notifyListeners "remove" st in
  (RValue poppedItem, st).

Definition shift (st : State) : Result * State :=
  let shiftedItem := fst (JsArray.shift (live st)) in
  let st := mutate_items (fun l => snd (JsArray.shift l)) st in
  let st := notifyListeners "shift" st in
  (RValue shiftedItem, st).

Definition unshift (itemsToUnshift : list value) (st : State) : Result * State :=
  let st := mutate_items (fun l => itemsToUnshift ++ l) st in
  let st := notifyListeners "unshift" st in
  (RNumber (JsArray.len (live st)), st).

(** [items.splice(start, deleteCount ?? items.length - start, ...addItems)]. *)
Definition splice (start : Z) (deleteCount : option Z) (addItems : list value)
  (st : State) : Result * State :=
  let dc := default (JsArray.len (live st) - start) deleteCount in
  let result := fst (JsArray.splice start dc addItems (live st)) in
  let st := mutate_items (fun l => snd (JsArray.splice start dc addItems l)) st in
  let st := notifyListeners "splice" st in
  (RArray result, st).

Definition reverse (st : State) : Result * State :=
  let st := mutate_items (@List.rev value) st in
  let st := notifyListeners "reverse" st in
  (RItems (items st), st).

Definition sort (compareFn : option (value -> value -> Z)) (st : State)
  : Result * State :=
  let st := mutate_items (JsArray.sort compareFn) st in
  let st := notifyListeners "sort" st in
  (RItems (items st), st).

Definition fill (v : value) (start end_ : option Z) (st : State)
  : Result * State :=
  let st := mutate_items (JsArray.fill v start end_) st in
  let st := notifyListeners "fill" st in
  (RItems (items st), st).

Definition copyWithin (target start : Z) (end_ : option Z) (st : State)
  : Result * State :=
  let st := mutate_items (JsArray.copyWithin target start end_) st in
  let st := notifyListeners "copyWithin" st in
  (RItems (items st), st).

(** [getItems: () => [...items]]. *)
Definition getItems (st : State) : list value := live st.

End ArrayActions.

(** [updateHistory]: drop the entries after the cursor, push a snapshot of
    the live items, move the cursor to it. *)
Definition updateHistory (st : State) : State :=
  let st := set_history (snd (JsArray.splice_from (historyIndex st + 1) (history st))) st in
  let '(h, r) := alloc (heap st) (live st) in
  let st := set_history (history st ++ [Some (HistoryEntry.mk r [])]) (set_heap h st) in
  set_historyIndex (JsArray.len (history st) - 1) st.

(** A call of a method of [arrayActions], with its arguments. *)
Inductive Call : Type :=
| BatchPush (itemsToPush : list value)
| SetValidation (fn : value -> bool)
| Push (itemsToPush : list value)
| Pop
| Shift
| Unshift (itemsToUnshift : list value)
| Splice (start : Z) (deleteCount : option Z) (addItems : list value)
| Reverse
| Sort (compareFn : option (value -> value -> Z))
| Fill (v : value) (start end_ : option Z)
| CopyWithin (target start : Z) (end_ : option Z).

(** The property name a call goes through. *)
Definition method (c : Call) : string :=
  match c with
  | BatchPush _ => "batchPush"
  | SetValidation _ => "setValidation"
  | Push _ => "push"
  | Pop => "pop"
  | Shift => "shift"
  | Unshift _ => "unshift"
  | Splice _ _ _ => "splice"
  | Reverse => "reverse"
  | Sort _ => "sort"
  | Fill _ _ _ => "fill"
  | CopyWithin _ _ _ => "copyWithin"
  end.

Definition originalMethod (c : Call) : State -> Result * State :=
  match c with
  | BatchPush l => ArrayActions.batchPush l
  | SetValidation fn => ArrayActions.setValidation fn
  | Push l => ArrayActions.push l
  | Pop => ArrayActions.pop
  | Shift => ArrayActions.shift
  | Unshift l => ArrayActions.unshift l
  | Splice s d a => ArrayActions.splice s d a
  | Reverse => ArrayActions.reverse
  | Sort f => ArrayActions.sort f
  | Fill v s e => ArrayActions.fill v s e
  | CopyWithin t s e => ArrayActions.copyWithin t s e
  end.

Definition mutatingMethods : list string :=
  ["push"; "pop"; "shift"; "unshift"; "splice"; "reverse"; "sort"; "fill";
   "copyWithin"]%string.

(** [arrayActions] as the instance exposes it: [mutatingMethods.forEach] has
    replaced each listed method by a wrapper that runs the original, then
    [updateHistory], then returns the original's result. *)
Definition recorded (c : Call) : bool :=
  bool_decide (method c ∈ mutatingMethods).

Definition arrayActions (c : Call) (st : State) : Result * State :=
  if recorded c
  then
    let '(result, st) := originalMethod c st in
    (result, updateHistory st)
  else originalMethod c st.

(** Running a sequence of calls, results dropped. *)
Definition run (cs : list Call) (st : State) : State :=
  foldl (fun st c => snd (arrayActions c st)) st cs.

(** ** Serialized history

    [JSON.stringify] and [JSON.parse] are built-ins of the language, not code
    of this repository.  A serialized text is represented by the JSON document
    it denotes; [Malformed] stands for every text that is not JSON. *)

#[local] Set Warnings "-register-all".

Inductive json : Type :=
| JNull
| JBool (b : bool)
| JNum (n : Z)
| JStr (s : string)
| JArr (l : list json)
| JObj (fields : list (string * json)).

Inductive Serialized : Type :=
| Text (doc : json)
| Malformed.

Module JSON.

(** An array element: [undefined], [NaN] and the infinities are written as
    [null], negative zero as [0]. *)
Definition of_value (v : value) : json :=
  match v with
  | VUndefined | VNull | VNaN | VInfinity _ => JNull
  | VBool b => JBool b
  | VNum n => JNum n
  | VStr s => JStr s
  | VNegZero => JNum 0
  end.

Definition of_items (l : list value) : json := JArr (of_value <$> l).

(** [{ label, items }]: a property whose value is [undefined] is left out. *)
Definition of_checkpoint (cp : Checkpoint.t) : json :=
  JObj (match Checkpoint.label cp with
        | Some s => [("label"%string, JStr s)]
        | None => []
        end ++ [("items"%string, of_items (Checkpoint.items cp))]).

Definition of_entry (h : Heap) (e : option HistoryEntry.t) : json :=
  match e with
  | Some e =>
    JObj [("items"%string, of_items (read h (HistoryEntry.items e)));
          ("checkpoints"%string,
           JArr (of_checkpoint <$> HistoryEntry.checkpoints e))]
  | None => JNull
  end.

(** [JSON.stringify(history)]. *)
Definition stringify_history (h : Heap) (hs : list (option HistoryEntry.t))
  : Serialized :=
  Text (JArr (of_entry h <$> hs)).

(** [JSON.parse(serialized)]. *)
Definition parse (s : Serialized) : option json :=
  match s with
  | Text doc => Some doc
  | Malformed => None
  end.

(** Reading a parsed document back as typed data.  A document of another
    shape (nested elements, a label that is not a string, an entry that is
    not an object) has no counterpart in the typed model: [None]. *)
Definition to_value (j : json) : option value :=
  match j with
  | JNull => Some VNull
  | JBool b => Some (VBool b)
  | JNum n => Some (VNum n)
  | JStr s => Some (VStr s)
  | JArr _ | JObj _ => None
  end.

Definition to_items (j : json) : option (list value) :=
  match j with
  | JArr l => mapM to_value l
  | _ => None
  end.

(** Property lookup in a parsed object: the last occurrence of a key wins. *)
Definition field (k : string) (fields : list (string * json)) : option json :=
  snd <$> last (List.filter (fun kv => bool_decide (fst kv = k)) fields).

Definition to_checkpoint (j : json) : option Checkpoint.t :=
  match j with
  | JObj fs =>
    match field "items" fs with
    | Some ji =>
      match to_items ji, field "label" fs with
      | Some its, None => Some (Checkpoint.mk None its)
      | Some its, Some (JStr s) => Some (Checkpoint.mk (Some s) its)
      | _, _ => None
      end
    | None => None
    end
  | _ => None
  end.

(** A parsed entry: its items by value (the array is fresh) and its
    checkpoints; [null] is a slot without an entry. *)
Definition to_entry (j : json) : option (option (list value * list Checkpoint.t)) :=
  match j with
  | JNull => Some None
  | JObj fs =>
    match field "items" fs, field "checkpoints" fs with
    | Some ji, Some (JArr jc) =>
      match to_items ji, mapM to_checkpoint jc with
      | Some its, Some cps => Some (Some (its, cps))
      | _, _ => None
      end
    | _, _ => None
    end
  | _ => None
  end.

End JSON.

(** ** History actions

    A history action may fail half way: [history[historyIndex].items] throws
    a [TypeError] when the slot holds no entry, after [historyIndex] has
    already been assigned.  Actions therefore run in a state monad whose
    failures keep the state reached so far. *)

Inductive Error : Type :=
| TypeError
| SyntaxError
| OutsideModel.   (* the run stores data the typed model cannot hold *)

Inductive Outcome (A : Type) : Type :=
| Return (a : A)
| Throw (e : Error).
Arguments Return {A} a.
Arguments Throw {A} e.

Definition M (A : Type) : Type := State -> Outcome A * State.

Definition ret {A} (a : A) : M A := fun st => (Return a, st).

Definition bind {A B} (m : M A) (k : A -> M B) : M B :=
  fun st =>
    match m st with
    | (Return a, st') => k a st'
    | (Throw e, st') => (Throw e, st')
    end.

Definition get : M State := fun st => (Return st, st).

Definition modify (f : State -> State) : M unit := fun st => (Return tt, f st).

Definition throw {A} (e : Error) : M A := fun st => (Throw e, st).

Notation "'let*' x ':=' m 'in' k" := (bind m (fun x => k))
  (at level 10, x name, m at level 100, k at level 200).
Notation "m ';;' k" := (bind m (fun _ => k))
  (at level 100, k at level 200, right associativity).

(** Where the two loops stop. *)
Definition undo_target (times idx : Z) : Z :=
  if 0 <? idx
  then (if times <? 0 then 0 else Z.max 0 (idx - times))
  else idx.

Definition redo_target (times idx last : Z) : Z :=
  if idx <? last
  then (if times <? 0 then last else Z.min last (idx + times))
  else idx.

(** [history[i]] followed by a property access. *)
Definition entryAt (i : Z) : M HistoryEntry.t :=
  fun st =>
    match JsArray.get (history st) i with
    | Some (Some e) => (Return e, st)
    | _ => (Throw TypeError, st)
    end.

(** [history[historyIndex]] followed by a property access. *)
Definition currentEntry : M HistoryEntry.t :=
  let* st := get in entryAt (historyIndex st).

(** [while (times-- && historyIndex > 0) historyIndex--].  Every iteration
    lowers a positive [historyIndex] by one, so [historyIndex] iterations
    are enough; the value of [times] after the loop is not used. *)
Fixpoint undo_loop (fuel : nat) (times idx : Z) : Z :=
  match fuel with
  | O => idx
  | S fuel' =>
    if negb (times =? 0) && (0 <? idx)
    then undo_loop fuel' (times - 1) (idx - 1)
    else idx
  end.

(** [while (times-- && historyIndex < history.length - 1) historyIndex++]. *)
Fixpoint redo_loop (fuel : nat) (times idx last : Z) : Z :=
  match fuel with
  | O => idx
  | S fuel' =>
    if negb (times =? 0) && (idx <? last)
    then redo_loop fuel' (times - 1) (idx + 1) last
    else idx
  end.

(** [history.push(...entries)] for parsed entries: each brings a fresh items
    array. *)
Fixpoint adopt (es : list (option (list value * list Checkpoint.t))) (st : State)
  : State :=
  match es with
  | [] => st
  | None :: es' => adopt es' (set_history (history st ++ [None]) st)
  | Some (its, cps) :: es' =>
    let '(h, r) := alloc (heap st) its in
    adopt es' (set_history (history st ++ [Some (HistoryEntry.mk r cps)])
                           (set_heap h st))
  end.

(** [items.some((item, index) => item !== currentItems[index])]. *)
Definition some_differs (its currentItems : list value) : bool :=
  existsb (fun b : bool => b)
    (imap (fun index item =>
             strict_neq item (default VUndefined (currentItems !! index))) its).

Module HistoryActions.

Definition previous : M Result :=
  let* st := get in
  let* result :=
    (if 0 <? historyIndex st
     then
       modify (set_historyIndex (historyIndex st - 1));;
       let* e := currentEntry in
       ret (HistoryEntry.items e)
     else ret (items st)) in
  modify (notifySubscribers "previous" (PItems result));;
  ret (RItems result).

Definition next : M Result :=
  let* st := get in
  let* result :=
    (if historyIndex st <? JsArray.len (history st) - 1
     then
       modify (set_historyIndex (historyIndex st + 1));;
       let* e := currentEntry in
       ret (HistoryEntry.items e)
     else ret (items st)) in
  modify (notifySubscribers "next" (PItems result));;
  ret (RItems result).

(** [history.length = 1] truncates, or pads an empty array with a hole. *)
Definition clean : M Result :=
  modify (fun st => set_history (resize 1 None (history st)) st);;
  modify (set_historyIndex 0);;
  modify (fun st => notifySubscribers "clean" (PHistory (history st)) st);;
  ret RUndefined.

Definition jump (number : Z) : M Result :=
  modify (fun st => set_historyIndex (historyIndex st + number) st);;
  let* e := currentEntry in
  modify (set_items (HistoryEntry.items e));;
  modify (fun st => notifySubscribers "jump" (PItems (items st)) st);;
  let* st := get in
  ret (RItems (items st)).

Definition goTo (index : Z) : M Result :=
  modify (set_historyIndex index);;
  let* e := currentEntry in
  modify (set_items (HistoryEntry.items e));;
  modify (fun st => notifySubscribers "goTo" (PItems (items st)) st);;
  let* st := get in
  ret (RItems (items st)).

(** Writing back the entry object at the cursor. *)
Definition set_checkpoints (cps : list Checkpoint.t) (st : State) : State :=
  match JsArray.get (history st) (historyIndex st) with
  | Some (Some e) =>
    set_history (<[Z.to_nat (historyIndex st) :=
                     Some (HistoryEntry.mk (HistoryEntry.items e) cps)]> (history st)) st
  | _ => st
  end.

Definition saveCheckpoint (label : option string) : M Result :=
  let* e := currentEntry in
  let* st := get in
  let cps := HistoryEntry.checkpoints e ++ [Checkpoint.mk label (live st)] in
  modify (set_checkpoints cps);;
  modify (notifySubscribers "saveCheckpoint" (PCheckpoints cps));;
  ret RUndefined.

(** [(cp) => cp.label === label]. *)
Definition has_label (label : string) (cp : Checkpoint.t) : Prop :=
  Checkpoint.label cp = Some label.

#[global] Instance has_label_dec label cp : Decision (has_label label cp).
Proof. unfold has_label. apply _. Defined.

Definition removeCheckpoint (label : string) : M Result :=
  let* e := currentEntry in
  match list_find (has_label label) (HistoryEntry.checkpoints e) with
  | Some (checkpointIndex, _) =>
    let cps := delete checkpointIndex (HistoryEntry.checkpoints e) in
    modify (set_checkpoints cps);;
    modify (notifySubscribers "removeCheckpoint" (PCheckpoints cps));;
    ret RUndefined
  | None => ret RUndefined
  end.

Definition restoreCheckpoint (label : string) : M Result :=
  let* e := currentEntry in
  let checkpoint := snd <$> list_find (has_label label) (HistoryEntry.checkpoints e) in
  match checkpoint with
  | Some cp => modify (assign_copy (Checkpoint.items cp))
  | None => ret tt
  end;;
  modify (notifySubscribers "restoreCheckpoint" (PCheckpoint checkpoint));;
  ret RUndefined.

(** [import]: [JSON.parse] throws on a malformed text; [history.length = 0]
    empties the array; the spread throws on a document that cannot be
    iterated. *)
Definition import (serialized : Serialized) : M Result :=
  let* importedHistory :=
    (match JSON.parse serialized with
     | Some doc => ret doc
     | None => throw SyntaxError
     end) in
  modify (set_history []);;
  match importedHistory with
  | JArr l =>
    match mapM JSON.to_entry l with
    | Some es => modify (adopt es)
    | None => throw OutsideModel
    end
  | JStr _ => throw OutsideModel
  | JNull | JBool _ | JNum _ | JObj _ => throw TypeError
  end;;
  modify (fun st => set_historyIndex (JsArray.len (history st) - 1) st);;
  modify (fun st => notifySubscribers "import" (PHistory (history st)) st);;
  ret RUndefined.

Definition limit (size : Z) : M Result :=
  let* st := get in
  if size <? JsArray.len (history st)
  then
    modify (fun st =>
      set_history
        (snd (JsArray.splice 0 (JsArray.len (history st) - size) [] (history st))) st);;
    modify (fun st => set_historyIndex (JsArray.len (history st) - 1) st);;
    modify (fun st => notifySubscribers "limit" (PHistory (history st)) st);;
    ret RUndefined
  else ret RUndefined.

(** [undo(times = 1)]. *)
Definition undo (times : Z) : M Result :=
  modify (fun st =>
    set_historyIndex
      (undo_loop (Z.to_nat (historyIndex st)) times (historyIndex st)) st);;
  let* e := currentEntry in
  modify (fun st => assign_copy (read (heap st) (HistoryEntry.items e)) st);;
  modify (fun st => notifySubscribers "undo" (PItems (items st)) st);;
  ret RUndefined.

(** [redo(times = 1)]. *)
Definition redo (times : Z) : M Result :=
  modify (fun st =>
    let last := JsArray.len (history st) - 1 in
    set_historyIndex
      (redo_loop (Z.to_nat (last - historyIndex st)) times (historyIndex st) last) st);;
  let* e := currentEntry in
  modify (fun st => assign_copy (read (heap st) (HistoryEntry.items e)) st);;
  modify (fun st => notifySubscribers "redo" (PItems (items st)) st);;
  ret RUndefined.

Definition hasChanges : M Result :=
  let* e := currentEntry in
  let* st := get in
  let currentItems := read (heap st) (HistoryEntry.items e) in
  ret (RBool (some_differs (live st) currentItems)).

Definition listCheckpoints : M Result :=
  let* e := currentEntry in
  ret (RCheckpoints (HistoryEntry.checkpoints e)).

Definition toJSON (st : State) : Serialized :=
  JSON.stringify_history (heap st) (history st).

End HistoryActions.

(** A call of a method of [historyActions], with its arguments. *)
Inductive HistoryCall : Type :=
| Previous
| Next
| Clean
| Jump (number : Z)
| GoTo (index : Z)
| SaveCheckpoint (label : option string)
| RemoveCheckpoint (label : string)
| RestoreCheckpoint (label : string)
| Import (serialized : Serialized)
| Limit (size : Z)
| Undo (times : Z)
| Redo (times : Z)
| HasChanges
| ListCheckpoints.

Definition historyActions (c : HistoryCall) : M Result :=
  match c with
  | Previous => HistoryActions.previous
  | Next => HistoryActions.next
  | Clean => HistoryActions.clean
  | Jump n => HistoryActions.jump n
  | GoTo i => HistoryActions.goTo i
  | SaveCheckpoint l => HistoryActions.saveCheckpoint l
  | RemoveCheckpoint l => HistoryActions.removeCheckpoint l
  | RestoreCheckpoint l => HistoryActions.restoreCheckpoint l
  | Import s => HistoryActions.import s
  | Limit n => HistoryActions.limit n
  | Undo n => HistoryActions.undo n
  | Redo n => HistoryActions.redo n
  | HasChanges => HistoryActions.hasChanges
  | ListCheckpoints => HistoryActions.listCheckpoints
  end.

(** The state an action leaves, whether it returns or throws. *)
Definition exec {A} (m : M A) (st : State) : State := snd (m st).

(** ** Predicates on states *)

(** [0 <= cursor < length(entries)]. *)
Definition cursor_valid (st : State) : Prop :=
  0 <= historyIndex st < JsArray.len (history st).

(** Every slot of the history holds an entry. *)
Definition entries_present (st : State) : Prop :=
  Forall is_Some (history st).

Definition history_ok (st : State) : Prop :=
  entries_present st /\ cursor_valid st.

(** The snapshot stored in slot [i] of the history. *)
Definition snapshot (st : State) (i : Z) : option (list value) :=
  match JsArray.get (history st) i with
  | Some (Some e) => Some (read (heap st) (HistoryEntry.items e))
  | _ => None
  end.

(** An entry as a reader sees it: the contents of its items array and its
    checkpoints. *)
Definition view_entry (h : Heap) (e : option HistoryEntry.t)
  : option (list value * list Checkpoint.t) :=
  (fun e => (read h (HistoryEntry.items e), HistoryEntry.checkpoints e)) <$> e.

Definition view_history (st : State) : list (option (list value * list Checkpoint.t)) :=
  view_entry (heap st) <$> history st.

(** References point into the store: the live variable and every entry hold
    an allocated array. *)
Definition entry_in (n : nat) (e : option HistoryEntry.t) : Prop :=
  match e with
  | Some e => (HistoryEntry.items e < n)%nat
  | None => True
  end.

Definition store_ok (st : State) : Prop :=
  (items st < length (heap st))%nat /\
  Forall (entry_in (length (heap st))) (history st).

(** The states an instance can be in: a fresh one, and what any call of an
    array action or a history action leaves, returning or throwing. *)
Inductive reachable : State -> Prop :=
| reachable_fresh initial vf : reachable (magicArray initial vf)
| reachable_array c st :
    reachable st -> reachable (snd (arrayActions c st))
| reachable_history c st :
    reachable st -> reachable (exec (historyActions c) st).

(** Histories built by recorded calls alone.
    [linear initial n st]: [st] is what [n] recorded calls make of a fresh
    instance.  The history has [n + 1] entries, the cursor is on the last,
    no entry shares its array with the live variable, entry 0 holds the
    initial elements and the last entry holds the live ones. *)
Definition linear (initial : list value) (n : nat) (st : State) : Prop :=
  (items st < length (heap st))%nat /\
  length (history st) = S n /\
  historyIndex st = Z.of_nat n /\
  entries_present st /\
  (forall i e, history st !! i = Some (Some e) ->
     (HistoryEntry.items e < length (heap st))%nat /\
     HistoryEntry.items e <> items st) /\
  snapshot st 0 = Some initial /\
  snapshot st (Z.of_nat n) = Some (live st).

(** [serialized] parses into an array of entries. *)
Definition entries_array (s : Serialized)
  (es : list (option (list value * list Checkpoint.t))) : Prop :=
  exists l, s = Text (JArr l) /\ mapM JSON.to_entry l = Some es.

(** The preconditions the specification states for the history actions. *)
Definition stated_precondition (c : HistoryCall) (st : State) : Prop :=
  match c with
  | Jump number => 0 <= historyIndex st + number < JsArray.len (history st)
  | GoTo index => 0 <= index < JsArray.len (history st)
  | Limit size => 0 <= size
  | Import s => exists es, entries_array s es
  | _ => True
  end.

(** The preconditions under which the code keeps the cursor on an entry:
    [limit] needs a size of at least one, [import] an array with at least
    one entry and no [null]. *)
Definition precondition (c : HistoryCall) (st : State) : Prop :=
  match c with
  | Jump number => 0 <= historyIndex st + number < JsArray.len (history st)
  | GoTo index => 0 <= index < JsArray.len (history st)
  | Limit size => 1 <= size
  | Import s => exists es, entries_array s es /\ es <> [] /\ Forall is_Some es
  | _ => True
  end.





(** A sample of initial elements for the examples. *)
Definition v123 : list value := [VNum 1; VNum 2; VNum 3].

(** ** Serializing the live items

    [serialize] and [deserialize] of the [arrayActions] object.  Neither is in
    [mutatingMethods].  [deserialize] catches whatever its body throws and
    reports it with [console.error]; what it reports is part of its result
    here. *)

Module Serialization.

Inductive Console : Type :=
| Silent
| ConsoleError (e : Error).

(** [serialize: () => JSON.stringify(items)]. *)
Definition serialize (st : State) : Serialized :=
  Text (JSON.of_items (live st)).

(** [deserialize]: the parsed array becomes the live array, then the
    listeners are notified.  A document that is not an array of primitives
    would make [items] something the typed model cannot hold. *)
Definition deserialize (jsonString : Serialized) (st : State)
  : Outcome Console * State :=
  match JSON.parse jsonString with
  | None => (Return (ConsoleError SyntaxError), st)
  | Some doc =>
    match JSON.to_items doc with
    | Some parsed =>
      (Return Silent, notifyListeners "deserialize" (assign_copy parsed st))
    | None => (Throw OutsideModel, st)
    end
  end.

End Serialization.

(** ** Flattening and CSV

    [deepFlatten] and [toCSV] take any array.  Its elements are primitives,
    objects that are not arrays, or arrays. *)

Inductive anyval : Type :=
| APrim (v : value)
| AObject
| AArray (l : list anyval).

(** Induction over nested arrays. *)
Fixpoint anyval_induction (P : anyval -> Prop)
  (Hprim : forall v, P (APrim v)) (Hobject : P AObject)
  (Harray : forall l, Forall P l -> P (AArray l)) (v : anyval) : P v :=
  match v with
  | APrim p => Hprim p
  | AObject => Hobject
  | AArray l =>
    Harray l
      ((fix go (l : list anyval) : Forall P l :=
          match l with
          | [] => List.Forall_nil P
          | x :: l' =>
            @List.Forall_cons _ P x l'
              (anyval_induction P Hprim Hobject Harray x) (go l')
          end) l)
  end.

Module Csv.

(** [Array.isArray(val)]. *)
Definition isArray (val : anyval) : bool :=
  match val with
  | AArray _ => true
  | _ => false
  end.

(** [Array.isArray(val) ? deepFlatten(val) : [val]]. *)
Fixpoint flatten_value (val : anyval) : list anyval :=
  match val with
  | AArray l => foldl (fun acc v => acc ++ flatten_value v) [] l
  | _ => [val]
  end.

(** [arr.reduce((acc, val) => [...acc, ...(that)], [])]. *)
Definition deepFlatten (arr : list anyval) : list anyval :=
  foldl (fun acc val => acc ++ flatten_value val) [] arr.

(** What [join] writes for one element: nothing for [undefined] and [null],
    [ToString] for the rest. *)
Fixpoint join_value (v : anyval) : string :=
  match v with
  | APrim VUndefined | APrim VNull => EmptyString
  | APrim p => to_string p
  | AObject => "[object Object]"
  | AArray l => String.concat "," (List.map join_value l)
  end.

(** [l.join(delimiter)]. *)
Definition join (delimiter : string) (l : list anyval) : string :=
  String.concat delimiter (List.map join_value l).

(** [toCSV(arr, delimiter)]. *)
Definition toCSV (arr : list anyval) (delimiter : string) : string :=
  join delimiter (deepFlatten arr).

(** The history as [toCSV] sees it: every entry is an object.  A slot without
    an entry is either a hole, which [reduce] skips, or [null], which it
    keeps; the state does not tell which, so there is no answer then. *)
Definition history_values (hs : list (option HistoryEntry.t))
  : option (list anyval) :=
  mapM (fun slot : option HistoryEntry.t =>
          match slot with
          | Some _ => Some AObject
          | None => None
          end) hs.

(** [historyActions.toCSV(delimiter = ',')]. *)
Definition history_toCSV (delimiter : option string) (st : State)
  : option string :=
  (fun arr => toCSV arr (default ","%string delimiter))
    <$> history_values (history st).

End Csv.

(** ** The lazy wrapper

    [createLazyWrapper(arrayActions)]: reading a property other than
    [evaluate] gives a function that queues the property name with its
    arguments; [evaluate] replays the queue against [arrayActions].  A queued
    name is a method modelled by [Call], [getItems], or a name that is no
    method at all (the read-only queries are left out). *)

Module Lazy.

Inductive Action : Type :=
| Known (c : Call)
| GetItems
| Unknown (method : string).

(** [actions.push({ method, args })]. *)
Definition record (a : Action) (actions : list Action) : list Action :=
  actions ++ [a].

(** The [forEach] of [evaluate]: calling a name that is no method throws and
    ends the replay. *)
Fixpoint replay (actions : list Action) (result : Result) (st : State)
  : Outcome Result * State :=
  match actions with
  | [] => (Return result, st)
  | Known c :: rest =>
    let '(r, st') := arrayActions c st in replay rest r st'
  | GetItems :: rest => replay rest (RArray (ArrayActions.getItems st)) st
  | Unknown _ :: _ => (Throw TypeError, st)
  end.

(** [evaluate]: the outcome, the state, and the queue afterwards
    ([actions = []] is reached only when the replay did not throw). *)
Definition evaluate (actions : list Action) (st : State)
  : Outcome Result * State * list Action :=
  match replay actions (RArray (ArrayActions.getItems st)) st with
  | (Return r, st') => (Return r, st', [])
  | (Throw e, st') => (Throw e, st', actions)
  end.

End Lazy.

(** ** The listener registry

    [listeners] is one array for [addListener] and [history.subscribe]; a
    listener is identified by its function object, here a number. *)

Module Listeners.

(** [listeners.forEach((listener) => listener(event, payload))]: who is
    called, in order. *)
Definition broadcast (listeners : list nat) (n : Notification)
  : list (nat * Notification) :=
  (fun l => (l, n)) <$> listeners.

(** [history.subscribe(listener)]. *)
Definition subscribe (listener : nat) (listeners : list nat) : list nat :=
  listeners ++ [listener].

(** [addListener(listener)]: the registry afterwards and the one call made,
    to the new listener alone. *)
Definition addListener (listener : nat) (st : State) (listeners : list nat)
  : list nat * list (nat * Notification) :=
  (listeners ++ [listener], [(listener, ("initialize"%string, PCopy (live st)))]).

(** The function [addListener] returns: [indexOf] then [splice(index, 1)]. *)
Definition remove (listener : nat) (listeners : list nat) : list nat :=
  match list_find (fun l => l = listener) listeners with
  | Some (index, _) => delete index listeners
  | None => listeners
  end.

End Listeners.

(** A state whose live array is its own and holds what the entry at the
    cursor holds: what a fresh instance, [undo], [redo] and a recorded call
    leave. *)
Definition synced (st : State) : Prop :=
  store_ok st /\
  history_ok st /\
  Forall (fun slot : option HistoryEntry.t =>
            match slot with
            | Some e => HistoryEntry.items e <> items st
            | None => True
            end) (history st) /\
  snapshot st (historyIndex st) = Some (live st).

(** What JSON gives back for an element, a checkpoint and an entry:
    [undefined], [NaN] and the infinities return as [null], negative zero
    as [0], every other element as it is. *)
Definition json_round (v : value) : value :=
  match v with
  | VUndefined | VNaN | VInfinity _ => VNull
  | VNegZero => VNum 0
  | VNull | VBool _ | VNum _ | VStr _ => v
  end.

Definition json_round_checkpoint (cp : Checkpoint.t) : Checkpoint.t :=
  Checkpoint.mk (Checkpoint.label cp) (json_round <$> Checkpoint.items cp).

Definition json_round_entry (v : option (list value * list Checkpoint.t))
  : option (list value * list Checkpoint.t) :=
  (fun e : list value * list Checkpoint.t =>
     (json_round <$> fst e, json_round_checkpoint <$> snd e)) <$> v.

(** * Properties *)

#[local] Arguments JsArray.len : simpl never.
#[local] Arguments JsArray.get : simpl never.
#[local] Arguments JsArray.splice : simpl never.
#[local] Arguments JsArray.splice_from : simpl never.
#[local] Arguments alloc : simpl never.
#[local] Arguments read : simpl never.
#[local] Arguments write : simpl never.

(** Reduces field reads of updated states, and nothing else. *)
Ltac st_simpl :=
  cbn [heap items history historyIndex validationFn delivered
       set_heap set_items set_history set_historyIndex set_validationFn
       deliver notifySubscribers notifyListeners fst snd] in *.

(** Unfolds the monad. *)
Ltac run_m := unfold bind, get, modify, ret, throw, exec in *; st_simpl.

(** ** The store *)

Lemma read_alloc_new h a : read (fst (alloc h a)) (snd (alloc h a)) = a.
Proof.
  unfold read, alloc; cbn [fst snd].
  rewrite lookup_app_r by lia.
  replace (length h - length h)%nat with 0%nat by lia. reflexivity.
Qed.

Lemma read_alloc_old h a (r : loc) :
  (r < length h)%nat -> read (fst (alloc h a)) r = read h r.
Proof.
  intros Hr. unfold read, alloc; cbn [fst snd].
  rewrite lookup_app_l by lia. reflexivity.
Qed.

Lemma read_write_same h (r : loc) a :
  (r < length h)%nat -> read (write h r a) r = a.
Proof.
  intros Hr. unfold read, write. rewrite list_lookup_insert_eq by lia. reflexivity.
Qed.

Lemma read_write_other h (r r' : loc) a :
  r <> r' -> read (write h r a) r' = read h r'.
Proof.
  intros Hr. unfold read, write. rewrite list_lookup_insert_ne by done. reflexivity.
Qed.

Lemma length_write h r a : length (write h r a) = length h.
Proof. apply length_insert. Qed.

(** ** Array indices *)

Lemma get_nonneg {A} (l : list A) (i : Z) :
  0 <= i -> JsArray.get l i = l !! Z.to_nat i.
Proof.
  intros Hi. unfold JsArray.get.
  destruct (i <? 0) eqn:E; [apply Z.ltb_lt in E; lia | reflexivity].
Qed.

Lemma get_present {A} (l : list (option A)) (i : Z) :
  Forall is_Some l -> 0 <= i < JsArray.len l ->
  exists e, JsArray.get l i = Some (Some e).
Proof.
  intros Hall [H0 Hlt]. unfold JsArray.len in Hlt.
  rewrite get_nonneg by done.
  destruct (lookup_lt_is_Some_2 l (Z.to_nat i)) as [x Hx]; [lia |].
  rewrite Forall_lookup in Hall. destruct (Hall _ _ Hx) as [e ->]. eauto.
Qed.

(** [splice(0, length - size)] as [limit] calls it. *)
Lemma splice_oldest {A} (l : list A) (size : Z) :
  size < JsArray.len l ->
  snd (JsArray.splice 0 (JsArray.len l - size) [] l)
  = drop (Z.to_nat (JsArray.len l - Z.max size 0)) l.
Proof.
  intros Hlt. unfold JsArray.splice, JsArray.relative, JsArray.ztake, JsArray.zdrop.
  simpl. unfold JsArray.len in *.
  replace (Z.min 0 (Z.of_nat (length l))) with 0 by lia.
  simpl. f_equal. lia.
Qed.

(** ** limit *)

(** C9: for a history of length n and 0 < k < n, [limit(k)] keeps exactly the
    k most recent entries in their order and puts the cursor on the last of
    them, and it notifies ["limit"]; for k >= n nothing happens and nothing
    is notified. *)
Theorem limit_keeps_most_recent (st : State) (k : Z) :
  0 < k ->
  let n := JsArray.len (history st) in
  (k < n ->
   exists st',
     HistoryActions.limit k st = (Return RUndefined, st') /\
     history st' = drop (Z.to_nat (n - k)) (history st) /\
     JsArray.len (history st') = k /\
     (forall i, 0 <= i < k ->
        JsArray.get (history st') i = JsArray.get (history st) (n - k + i)) /\
     historyIndex st' = k - 1 /\
     delivered st' = delivered st ++ [("limit"%string, PHistory (history st'))] /\
     heap st' = heap st /\ items st' = items st) /\
  (n <= k -> HistoryActions.limit k st = (Return RUndefined, st)).
Proof.
  intros Hk n. subst n. split.
  - intros Hlt.
    unfold HistoryActions.limit, bind, get, modify, ret.
    destruct (k <? JsArray.len (history st)) eqn:E; [| apply Z.ltb_ge in E; lia].
    eexists. split; [reflexivity |]. st_simpl.
    rewrite splice_oldest by lia.
    replace (Z.max k 0) with k by lia.
    assert (Hlen : JsArray.len
                     (drop (Z.to_nat (JsArray.len (history st) - k)) (history st)) = k).
    { unfold JsArray.len in *. rewrite length_drop. lia. }
    repeat split; try done.
    + intros i Hi. rewrite !get_nonneg by lia. rewrite lookup_drop.
      f_equal. lia.
    + lia.
  - intros Hge. unfold HistoryActions.limit, bind, get, modify, ret.
    destruct (k <? JsArray.len (history st)) eqn:E; [apply Z.ltb_lt in E; lia |].
    reflexivity.
Qed.

Lemma limit_keeps_most_recent_witness :
  let st := run [Push [VNum 4]; Push [VNum 5]] (magicArray v123 None) in
  let n := JsArray.len (history st) in
  n = 3 /\
  (2 < n ->
   exists st',
     HistoryActions.limit 2 st = (Return RUndefined, st') /\
     history st' = drop (Z.to_nat (n - 2)) (history st) /\
     JsArray.len (history st') = 2 /\
     (forall i, 0 <= i < 2 ->
        JsArray.get (history st') i = JsArray.get (history st) (n - 2 + i)) /\
     historyIndex st' = 2 - 1 /\
     delivered st' = delivered st ++ [("limit"%string, PHistory (history st'))] /\
     heap st' = heap st /\ items st' = items st) /\
  (n <= 2 -> HistoryActions.limit 2 st = (Return RUndefined, st)).
Proof.
  split; [reflexivity |].
  apply (limit_keeps_most_recent
           (run [Push [VNum 4]; Push [VNum 5]] (magicArray v123 None)) 2).
  lia.
Defined.

(** ** Checkpoints *)

Lemma find_unknown_label label (cps : list Checkpoint.t) :
  Forall (fun cp => Checkpoint.label cp <> Some label) cps ->
  list_find (HistoryActions.has_label label) cps = None.
Proof. intros H. apply list_find_None. exact H. Qed.

(** C8, as the code has it: when the current entry has no checkpoint with the
    given label, [removeCheckpoint] changes nothing and notifies nobody;
    [restoreCheckpoint] leaves the live items, the entries and the cursor
    alone, but still notifies the listeners, with ["restoreCheckpoint"] and
    [undefined]. *)
Theorem unknown_label_changes_nothing (st : State) (label : string)
  (e : HistoryEntry.t) :
  JsArray.get (history st) (historyIndex st) = Some (Some e) ->
  Forall (fun cp => Checkpoint.label cp <> Some label) (HistoryEntry.checkpoints e) ->
  HistoryActions.removeCheckpoint label st = (Return RUndefined, st) /\
  exists st',
    HistoryActions.restoreCheckpoint label st = (Return RUndefined, st') /\
    heap st' = heap st /\ items st' = items st /\
    history st' = history st /\ historyIndex st' = historyIndex st /\
    delivered st' =
      delivered st ++ [("restoreCheckpoint"%string, PCheckpoint None)].
Proof.
  intros He Hno. apply find_unknown_label in Hno.
  unfold HistoryActions.removeCheckpoint, HistoryActions.restoreCheckpoint,
    currentEntry, entryAt.
  run_m. rewrite He, Hno. split; [reflexivity |].
  eexists. split; [reflexivity |]. st_simpl. repeat split.
Qed.

(** C8 as stated fails: on a fresh instance, [restoreCheckpoint] with a label
    that no checkpoint has reaches the listeners. *)
Lemma restoreCheckpoint_unknown_label_notifies :
  let st := magicArray v123 None in
  snapshot st (historyIndex st) = Some v123 /\
  fst (HistoryActions.listCheckpoints st) = Return (RCheckpoints []) /\
  delivered st = [] /\
  delivered (exec (HistoryActions.restoreCheckpoint "missing") st)
  = [("restoreCheckpoint"%string, PCheckpoint None)].
Proof. vm_compute. repeat split. Qed.

Lemma unknown_label_changes_nothing_witness :
  let st := magicArray v123 None in
  HistoryActions.removeCheckpoint "missing" st = (Return RUndefined, st) /\
  exists st',
    HistoryActions.restoreCheckpoint "missing" st = (Return RUndefined, st') /\
    heap st' = heap st /\ items st' = items st /\
    history st' = history st /\ historyIndex st' = historyIndex st /\
    delivered st' =
      delivered st ++ [("restoreCheckpoint"%string, PCheckpoint None)].
Proof.
  apply (unknown_label_changes_nothing (magicArray v123 None) "missing"
           (HistoryEntry.mk 1 [])).
  - reflexivity.
  - constructor.
Defined.

(** ** previous and next *)

(** [previous] and [next] assign neither [items] nor any array, whether they
    return or throw. *)
Lemma previous_next_frame (st : State) :
  (heap (exec HistoryActions.previous st) = heap st /\
   items (exec HistoryActions.previous st) = items st /\
   history (exec HistoryActions.previous st) = history st) /\
  (heap (exec HistoryActions.next st) = heap st /\
   items (exec HistoryActions.next st) = items st /\
   history (exec HistoryActions.next st) = history st).
Proof.
  unfold HistoryActions.previous, HistoryActions.next, currentEntry, entryAt.
  run_m. split.
  - destruct (0 <? historyIndex st); run_m; [| done].
    destruct (JsArray.get _ _) as [[e |] |]; done.
  - destruct (historyIndex st <? _); run_m; [| done].
    destruct (JsArray.get _ _) as [[e |] |]; done.
Qed.

(** In a state whose cursor is valid both calls return: they move the cursor
    by one unless it is at the first (last) entry and return the snapshot at
    the new cursor; at the first (last) entry they return the live array. *)
Lemma previous_next_fields (st : State) :
  history_ok st ->
  (exists r st',
     HistoryActions.previous st = (Return (RItems r), st') /\
     ArrayActions.getItems st' = ArrayActions.getItems st /\
     heap st' = heap st /\ items st' = items st /\ history st' = history st /\
     if 0 <? historyIndex st
     then historyIndex st' = historyIndex st - 1 /\
          snapshot st' (historyIndex st') = Some (read (heap st') r)
     else historyIndex st' = historyIndex st /\ r = items st) /\
  (exists r st',
     HistoryActions.next st = (Return (RItems r), st') /\
     ArrayActions.getItems st' = ArrayActions.getItems st /\
     heap st' = heap st /\ items st' = items st /\ history st' = history st /\
     if historyIndex st <? JsArray.len (history st) - 1
     then historyIndex st' = historyIndex st + 1 /\
          snapshot st' (historyIndex st') = Some (read (heap st') r)
     else historyIndex st' = historyIndex st /\ r = items st).
Proof.
  intros [Hall Hcur]. unfold cursor_valid in Hcur.
  unfold HistoryActions.previous, HistoryActions.next, currentEntry, entryAt,
    ArrayActions.getItems, live, snapshot.
  run_m. split.
  - destruct (0 <? historyIndex st) eqn:E; run_m.
    + apply Z.ltb_lt in E.
      destruct (get_present (history st) (historyIndex st - 1) Hall) as [e He];
        [lia |].
      rewrite He. do 2 eexists. split; [reflexivity |]. st_simpl.
      rewrite He. repeat split.
    + do 2 eexists. split; [reflexivity |]. st_simpl. repeat split.
  - destruct (historyIndex st <? JsArray.len (history st) - 1) eqn:E; run_m.
    + apply Z.ltb_lt in E.
      destruct (get_present (history st) (historyIndex st + 1) Hall) as [e He];
        [lia |].
      rewrite He. do 2 eexists. split; [reflexivity |]. st_simpl.
      rewrite He. repeat split.
    + do 2 eexists. split; [reflexivity |]. st_simpl. repeat split.
Qed.

(** C10: [previous] and [next] leave the live items unchanged, in every
    state: [getItems()] gives the same sequence after the call as before.
    In a state whose cursor is valid they return; they move the cursor by one
    unless it is at the first (last) entry and return the snapshot at the new
    cursor, and at the first (last) entry they return the live array. *)
Theorem previous_next_keep_live (st : State) :
  (ArrayActions.getItems (exec HistoryActions.previous st) = ArrayActions.getItems st /\
   ArrayActions.getItems (exec HistoryActions.next st) = ArrayActions.getItems st) /\
  (history_ok st ->
   (exists r st',
      HistoryActions.previous st = (Return (RItems r), st') /\
      history st' = history st /\
      if 0 <? historyIndex st
      then historyIndex st' = historyIndex st - 1 /\
           snapshot st' (historyIndex st') = Some (read (heap st') r)
      else historyIndex st' = historyIndex st /\ r = items st) /\
   (exists r st',
      HistoryActions.next st = (Return (RItems r), st') /\
      history st' = history st /\
      if historyIndex st <? JsArray.len (history st) - 1
      then historyIndex st' = historyIndex st + 1 /\
           snapshot st' (historyIndex st') = Some (read (heap st') r)
      else historyIndex st' = historyIndex st /\ r = items st)).
Proof.
  split.
  - destruct (previous_next_frame st) as [(Hh & Hi & _) (Hh' & Hi' & _)].
    unfold ArrayActions.getItems, live. rewrite Hh, Hi, Hh', Hi'. split; reflexivity.
  - intros Hok.
    destruct (previous_next_fields st Hok)
      as [(r & st' & Hp & _ & _ & _ & Hhs & Hif) (r2 & st2 & Hn & _ & _ & _ & Hhs2 & Hif2)].
    split; [exists r, st' | exists r2, st2]; repeat apply conj; assumption.
Qed.

Lemma previous_next_keep_live_witness :
  let st := run [Push [VNum 4]] (magicArray v123 None) in
  ArrayActions.getItems (exec HistoryActions.previous st) = v123 ++ [VNum 4] /\
  ArrayActions.getItems (exec HistoryActions.next st) = v123 ++ [VNum 4] /\
  (exists r st',
     HistoryActions.previous st = (Return (RItems r), st') /\
     history st' = history st /\
     historyIndex st' = 0 /\
     snapshot st' (historyIndex st') = Some (read (heap st') r)) /\
  (exists r st',
     HistoryActions.next st = (Return (RItems r), st') /\
     history st' = history st /\
     historyIndex st' = 1 /\ r = items st).
Proof.
  destruct (previous_next_keep_live (run [Push [VNum 4]] (magicArray v123 None)))
    as [[Hp Hn] Hret].
  destruct Hret as [(r & st' & H1 & H2 & H3 & H4) (r2 & st2 & H5 & H6 & H7 & H8)].
  { split; [vm_compute; repeat constructor; eauto |].
    vm_compute; split; [discriminate | reflexivity]. }
  split; [rewrite Hp; reflexivity |].
  split; [rewrite Hn; reflexivity |].
  split; [exists r, st' | exists r2, st2]; repeat apply conj; assumption.
Defined.

(** ** The loops of undo and redo

    With the fuel the model gives them, the loops stop because their
    condition fails, at the index the closed forms name. *)

Lemma undo_loop_closed (fuel : nat) (times idx : Z) :
  (Z.to_nat idx <= fuel)%nat -> undo_loop fuel times idx = undo_target times idx.
Proof.
  revert times idx. induction fuel as [| fuel IH]; intros times idx Hfuel;
    unfold undo_target; simpl.
  - destruct (Z.ltb_spec 0 idx); [lia | reflexivity].
  - destruct (Z.eqb_spec times 0) as [-> | Hne]; simpl.
    + destruct (Z.ltb_spec 0 idx); [| reflexivity]. simpl. lia.
    + destruct (Z.ltb_spec 0 idx) as [Hpos | Hnpos]; [| reflexivity].
      rewrite IH by lia. unfold undo_target.
      destruct (Z.ltb_spec 0 (idx - 1)), (Z.ltb_spec times 0),
        (Z.ltb_spec (times - 1) 0); lia.
Qed.

Lemma redo_loop_closed (fuel : nat) (times idx last : Z) :
  (Z.to_nat (last - idx) <= fuel)%nat ->
  redo_loop fuel times idx last = redo_target times idx last.
Proof.
  revert times idx. induction fuel as [| fuel IH]; intros times idx Hfuel;
    unfold redo_target; simpl.
  - destruct (Z.ltb_spec idx last); [lia | reflexivity].
  - destruct (Z.eqb_spec times 0) as [-> | Hne]; simpl.
    + destruct (Z.ltb_spec idx last); [| reflexivity]. simpl. lia.
    + destruct (Z.ltb_spec idx last) as [Hlt | Hge]; [| reflexivity].
      rewrite IH by lia. unfold redo_target.
      destruct (Z.ltb_spec (idx + 1) last), (Z.ltb_spec times 0),
        (Z.ltb_spec (times - 1) 0); lia.
Qed.

Lemma undo_target_range (times idx : Z) :
  0 <= idx -> 0 <= undo_target times idx <= idx.
Proof.
  intros H. unfold undo_target.
  destruct (Z.ltb_spec 0 idx), (Z.ltb_spec times 0); lia.
Qed.

Lemma redo_target_range (times idx last : Z) :
  idx <= last -> idx <= redo_target times idx last <= last.
Proof.
  intros H. unfold redo_target.
  destruct (Z.ltb_spec idx last), (Z.ltb_spec times 0); lia.
Qed.

(** ** What a recorded call does *)

(** Each of the nine wrapped methods changes the live array in place and
    notifies; it assigns nothing else. *)
Lemma originalMethod_mutates (c : Call) (st : State) :
  recorded c = true ->
  exists f ev,
    snd (originalMethod c st) = notifyListeners ev (mutate_items f st).
Proof.
  intros Hrec.
  destruct c; try discriminate Hrec; simpl;
    unfold ArrayActions.push, ArrayActions.pop, ArrayActions.shift,
      ArrayActions.unshift, ArrayActions.splice, ArrayActions.reverse,
      ArrayActions.sort, ArrayActions.fill, ArrayActions.copyWithin;
    cbn [snd]; do 2 eexists; reflexivity.
Qed.

(** [history.splice(historyIndex + 1)] with the cursor on an entry. *)
Lemma splice_future {A} (l : list A) (i : Z) :
  0 <= i < JsArray.len l ->
  snd (JsArray.splice_from (i + 1) l) = take (Z.to_nat (i + 1)) l.
Proof.
  intros Hi. unfold JsArray.splice_from, JsArray.relative, JsArray.ztake.
  cbn [snd]. destruct (Z.ltb_spec (i + 1) 0); [lia |].
  f_equal. lia.
Qed.

(** The recording step, field by field. *)
Lemma updateHistory_fields (st : State) :
  cursor_valid st ->
  let st' := updateHistory st in
  heap st' = heap st ++ [live st] /\
  items st' = items st /\
  history st' = take (Z.to_nat (historyIndex st + 1)) (history st)
                ++ [Some (HistoryEntry.mk (length (heap st)) [])] /\
  historyIndex st' = historyIndex st + 1 /\
  historyIndex st' = JsArray.len (history st') - 1 /\
  validationFn st' = validationFn st /\
  delivered st' = delivered st.
Proof.
  intros Hcur. unfold cursor_valid in Hcur.
  unfold updateHistory, alloc. st_simpl.
  rewrite splice_future by done.
  assert (JsArray.len (take (Z.to_nat (historyIndex st + 1)) (history st)
                       ++ [Some (HistoryEntry.mk (length (heap st)) [])])
          = historyIndex st + 2) as Hlen.
  { unfold JsArray.len in *. rewrite length_app, length_take. simpl. lia. }
  cbv zeta. st_simpl. rewrite Hlen. repeat split. lia.
Qed.

(** What a wrapped method leaves behind, in a state whose cursor is valid and
    whose live array is in the store: the entries after the cursor are gone,
    one entry is appended whose fresh array holds the resulting live items and
    whose checkpoint list is empty, and the cursor is on it. *)
Lemma recorded_call_fields (c : Call) (st : State) :
  recorded c = true ->
  cursor_valid st ->
  (items st < length (heap st))%nat ->
  exists ev,
    let st' := snd (arrayActions c st) in
    heap st' = write (heap st) (items st) (live st') ++ [live st'] /\
    items st' = items st /\
    history st' = take (Z.to_nat (historyIndex st + 1)) (history st)
                  ++ [Some (HistoryEntry.mk (length (heap st)) [])] /\
    historyIndex st' = historyIndex st + 1 /\
    historyIndex st' = JsArray.len (history st') - 1 /\
    snapshot st' (historyIndex st') = Some (live st') /\
    validationFn st' = validationFn st /\
    delivered st' = delivered st ++ [(ev, PCopy (live st'))].
Proof.
  intros Hrec Hcur Hitems.
  destruct (originalMethod_mutates c st Hrec) as (f & ev & Hst1).
  exists ev. unfold arrayActions. rewrite Hrec.
  destruct (originalMethod c st) as [r st1]. cbn [snd] in *. subst st1.
  set (st1 := notifyListeners ev (mutate_items f st)).
  assert (Hcur1 : cursor_valid st1) by exact Hcur.
  destruct (updateHistory_fields st1 Hcur1) as (Hh & Hi & Hhs & Hidx & Hlast & Hv & Hd).
  assert (Hlive1 : live st1 = f (live st)).
  { unfold st1, live, mutate_items. st_simpl. apply read_write_same. exact Hitems. }
  assert (Hheap1 : heap st1 = write (heap st) (items st) (f (live st))) by reflexivity.
  assert (Hlive' : live (updateHistory st1) = live st1).
  { unfold live at 1. rewrite Hh, Hi.
    change (read (heap st1 ++ [live st1]) (items st1))
      with (read (fst (alloc (heap st1) (live st1))) (items st1)).
    rewrite read_alloc_old; [reflexivity |].
    rewrite Hheap1, length_write. exact Hitems. }
  cbv zeta. rewrite Hlive', Hlive1.
  assert (Hlen1 : length (heap st1) = length (heap st)).
  { rewrite Hheap1. apply length_write. }
  repeat apply conj.
  - rewrite Hh, Hheap1, Hlive1. reflexivity.
  - exact Hi.
  - rewrite Hhs, Hlen1. reflexivity.
  - exact Hidx.
  - exact Hlast.
  - unfold snapshot. rewrite Hidx, Hhs.
    unfold cursor_valid in Hcur. rewrite get_nonneg by (change (historyIndex st1) with (historyIndex st); lia).
    rewrite lookup_app_r; rewrite length_take;
      change (history st1) with (history st);
      change (historyIndex st1) with (historyIndex st);
      unfold JsArray.len in Hcur; [| lia].
    replace (Z.to_nat (historyIndex st + 1)
             - Z.to_nat (historyIndex st + 1) `min` length (history st))%nat
      with 0%nat by lia.
    cbn [lookup list_lookup HistoryEntry.items]. rewrite Hh.
    change (read (heap st1 ++ [live st1]) (length (heap st1)))
      with (read (fst (alloc (heap st1) (live st1))) (snd (alloc (heap st1) (live st1)))).
    rewrite read_alloc_new. rewrite Hlive1. reflexivity.
  - exact Hv.
  - rewrite Hd. unfold st1. st_simpl. fold (live (mutate_items f st)).
    change (live (mutate_items f st)) with (live st1). rewrite Hlive1. reflexivity.
Qed.

(** ** undo and redo *)

Lemma live_assign_copy a st : live (assign_copy a st) = a.
Proof.
  unfold live, assign_copy.
  change (alloc (heap st) a) with (fst (alloc (heap st) a), snd (alloc (heap st) a)).
  st_simpl. apply read_alloc_new.
Qed.

(** [undo(k)] in a state whose cursor is valid: it returns, the cursor goes to
    [undo_target], and the live variable gets a fresh copy of that entry's
    snapshot. *)
Lemma undo_fields (st : State) (k : Z) :
  history_ok st ->
  exists e st',
    JsArray.get (history st) (undo_target k (historyIndex st)) = Some (Some e) /\
    HistoryActions.undo k st = (Return RUndefined, st') /\
    heap st' = heap st ++ [read (heap st) (HistoryEntry.items e)] /\
    items st' = length (heap st) /\
    history st' = history st /\
    historyIndex st' = undo_target k (historyIndex st) /\
    live st' = read (heap st) (HistoryEntry.items e).
Proof.
  intros [Hall Hcur]. unfold cursor_valid in Hcur.
  pose proof (undo_target_range k (historyIndex st) (proj1 Hcur)) as Hr.
  destruct (get_present (history st) (undo_target k (historyIndex st)) Hall)
    as [e He]; [lia |].
  exists e. unfold HistoryActions.undo, currentEntry, entryAt. run_m.
  rewrite undo_loop_closed by lia. rewrite He.
  eexists. split; [reflexivity |]. split; [reflexivity |]. st_simpl.
  repeat apply conj; try reflexivity.
  apply live_assign_copy.
Qed.

Lemma redo_fields (st : State) (k : Z) :
  history_ok st ->
  exists e st',
    JsArray.get (history st)
      (redo_target k (historyIndex st) (JsArray.len (history st) - 1))
      = Some (Some e) /\
    HistoryActions.redo k st = (Return RUndefined, st') /\
    heap st' = heap st ++ [read (heap st) (HistoryEntry.items e)] /\
    items st' = length (heap st) /\
    history st' = history st /\
    historyIndex st'
      = redo_target k (historyIndex st) (JsArray.len (history st) - 1) /\
    live st' = read (heap st) (HistoryEntry.items e).
Proof.
  intros [Hall Hcur]. unfold cursor_valid in Hcur.
  pose proof (redo_target_range k (historyIndex st)
                (JsArray.len (history st) - 1)) as Hr.
  destruct (get_present (history st)
              (redo_target k (historyIndex st) (JsArray.len (history st) - 1)) Hall)
    as [e He]; [lia |].
  exists e. unfold HistoryActions.redo, currentEntry, entryAt. run_m.
  rewrite redo_loop_closed by lia. rewrite He.
  eexists. split; [reflexivity |]. split; [reflexivity |]. st_simpl.
  repeat apply conj; try reflexivity.
  apply live_assign_copy.
Qed.

(** ** Histories built by recorded calls alone *)

Lemma linear_history_ok initial n st : linear initial n st -> history_ok st.
Proof.
  intros (_ & Hlen & Hidx & Hall & _). split; [exact Hall |].
  unfold cursor_valid, JsArray.len. lia.
Qed.

Lemma magicArray_linear initial vf : linear initial 0 (magicArray initial vf).
Proof.
  unfold linear, magicArray, alloc, snapshot, live, entries_present. st_simpl.
  repeat apply conj; try reflexivity.
  - simpl. lia.
  - repeat constructor. eauto.
  - intros [| i] e H; simpl in H; [| destruct i; discriminate].
    injection H as <-. simpl. split; lia.
Qed.

Lemma snapshot_unfold (st : State) (i : nat) (e : HistoryEntry.t) :
  history st !! i = Some (Some e) ->
  snapshot st (Z.of_nat i) = Some (read (heap st) (HistoryEntry.items e)).
Proof.
  intros H. unfold snapshot. rewrite get_nonneg by lia.
  rewrite Nat2Z.id, H. reflexivity.
Qed.

Lemma snapshot_inv (st : State) (i : Z) (l : list value) :
  snapshot st i = Some l ->
  exists e, 0 <= i /\ history st !! Z.to_nat i = Some (Some e) /\
            read (heap st) (HistoryEntry.items e) = l.
Proof.
  unfold snapshot, JsArray.get. intros H.
  destruct (Z.ltb_spec i 0); [discriminate |].
  destruct (history st !! Z.to_nat i) as [[e |] |] eqn:E; try discriminate.
  injection H as <-. eauto.
Qed.

Lemma linear_step initial n st c :
  recorded c = true ->
  linear initial n st ->
  linear initial (S n) (snd (arrayActions c st)).
Proof.
  intros Hrec Hlin. pose proof (linear_history_ok _ _ _ Hlin) as [_ Hcur].
  destruct Hlin as (Hitems & Hlen & Hidx & Hall & Hsep & H0 & Hlast).
  destruct (recorded_call_fields c st Hrec Hcur Hitems)
    as (ev & Hh & Hi & Hhs & Hidx' & Hidx'' & Hsnap & _ & _).
  cbv zeta in *. set (st' := snd (arrayActions c st)) in *.
  assert (Hhs' : history st' = history st
                   ++ [Some (HistoryEntry.mk (length (heap st)) [])]).
  { rewrite Hhs. f_equal. apply take_ge. lia. }
  assert (Hlenh : length (heap st') = S (length (heap st))).
  { rewrite Hh, length_app, length_write. simpl. lia. }
  assert (Hold : forall r : loc, (r < length (heap st))%nat -> r <> items st ->
                    read (heap st') r = read (heap st) r).
  { intros r Hr Hne. rewrite Hh.
    change (write (heap st) (items st) (live st') ++ [live st'])
      with (fst (alloc (write (heap st) (items st) (live st')) (live st'))).
    rewrite read_alloc_old by (rewrite length_write; exact Hr).
    apply read_write_other. congruence. }
  unfold linear. repeat apply conj.
  - rewrite Hi, Hlenh. lia.
  - rewrite Hhs', length_app. simpl. lia.
  - rewrite Hidx'. lia.
  - unfold entries_present. rewrite Hhs'. apply Forall_app. split; [exact Hall |].
    repeat constructor. eauto.
  - intros i e Hie. rewrite Hhs' in Hie. rewrite Hi, Hlenh.
    apply lookup_app_Some in Hie as [Hie | [Hge Hie]].
    + destruct (Hsep i e Hie). split; [lia | done].
    + destruct (i - length (history st))%nat; [| destruct n0; discriminate].
      injection Hie as <-. simpl. split; lia.
  - apply snapshot_inv in H0 as (e0 & _ & He0 & Hr0). simpl in He0.
    change 0 with (Z.of_nat 0). erewrite snapshot_unfold
      by (rewrite Hhs'; apply lookup_app_l_Some; exact He0).
    destruct (Hsep 0%nat e0 He0). rewrite Hold by done. congruence.
  - rewrite <- Hsnap. f_equal. lia.
Qed.

Lemma linear_run initial cs : forall n st,
  Forall (fun c => recorded c = true) cs ->
  linear initial n st ->
  linear initial (n + length cs) (run cs st).
Proof.
  induction cs as [| c cs IH]; intros n st Hcs Hlin; simpl.
  - replace (n + 0)%nat with n by lia. exact Hlin.
  - inversion Hcs as [| ? ? Hc Hcs']; subst.
    replace (n + S (length cs))%nat with (S n + length cs)%nat by lia.
    apply IH; [exact Hcs' |]. apply linear_step; assumption.
Qed.

(** C3: on a fresh instance with initial elements I, after n recorded
    mutations, [undo(n)] makes the live sequence equal to I and a following
    [redo(n)] makes it equal to the state after the last mutation.  Both
    calls return. *)
Theorem undo_redo_inverse (initial : list value)
  (vf : option (value -> bool)) (cs : list Call) :
  Forall (fun c => recorded c = true) cs ->
  let n := Z.of_nat (length cs) in
  let st := run cs (magicArray initial vf) in
  exists st1 st2,
    HistoryActions.undo n st = (Return RUndefined, st1) /\
    ArrayActions.getItems st1 = initial /\
    HistoryActions.redo n st1 = (Return RUndefined, st2) /\
    ArrayActions.getItems st2 = ArrayActions.getItems st.
Proof.
  intros Hcs n st.
  assert (Hlin : linear initial (length cs) st).
  { apply (linear_run initial cs 0 _ Hcs), magicArray_linear. }
  pose proof (linear_history_ok _ _ _ Hlin) as Hok.
  destruct Hlin as (Hitems & Hlen & Hidx & Hall & Hsep & H0 & Hlast).
  destruct (undo_fields st n Hok)
    as (e & st1 & He & Hundo & Hh1 & Hi1 & Hhs1 & Hidx1 & Hlive1).
  assert (Ht : undo_target n (historyIndex st) = 0).
  { rewrite Hidx. fold n. unfold undo_target.
    destruct (Z.ltb_spec 0 n), (Z.ltb_spec n 0); lia. }
  rewrite Ht in He, Hidx1.
  assert (Hinit : read (heap st) (HistoryEntry.items e) = initial).
  { unfold snapshot in H0. rewrite He in H0. congruence. }
  assert (Hok1 : history_ok st1).
  { split; [unfold entries_present; rewrite Hhs1; exact Hall |].
    unfold cursor_valid. rewrite Hhs1, Hidx1. unfold JsArray.len. lia. }
  destruct (redo_fields st1 n Hok1)
    as (e' & st2 & He' & Hredo & Hh2 & Hi2 & Hhs2 & Hidx2 & Hlive2).
  assert (Ht' : redo_target n (historyIndex st1) (JsArray.len (history st1) - 1) = n).
  { rewrite Hidx1, Hhs1. unfold JsArray.len. rewrite Hlen. fold n.
    unfold redo_target.
    destruct (Z.ltb_spec 0 (Z.of_nat (S (length cs)) - 1)), (Z.ltb_spec n 0); lia. }
  rewrite Ht', Hhs1 in He'.
  exists st1, st2. unfold ArrayActions.getItems.
  repeat apply conj; [exact Hundo | congruence | exact Hredo |].
  rewrite Hlive2, Hh1.
  apply snapshot_inv in Hlast as (el & _ & Hel & Hrl).
  rewrite Nat2Z.id in Hel.
  unfold n in He'. rewrite get_nonneg, Nat2Z.id, Hel in He' by lia.
  injection He' as <-.
  destruct (Hsep _ _ Hel) as [Hval _].
  change (heap st ++ [read (heap st) (HistoryEntry.items e)])
    with (fst (alloc (heap st) (read (heap st) (HistoryEntry.items e)))).
  rewrite read_alloc_old by exact Hval. exact Hrl.
Qed.

Lemma undo_redo_inverse_witness :
  let cs := [Push [VNum 4]; Pop; Sort None; Unshift [VNum 0]] in
  let st := run cs (magicArray v123 None) in
  exists st1 st2,
    HistoryActions.undo 4 st = (Return RUndefined, st1) /\
    ArrayActions.getItems st1 = v123 /\
    HistoryActions.redo 4 st1 = (Return RUndefined, st2) /\
    ArrayActions.getItems st2 = ArrayActions.getItems st.
Proof.
  apply (undo_redo_inverse v123 None
           [Push [VNum 4]; Pop; Sort None; Unshift [VNum 0]]).
  repeat constructor.
Defined.

(** C7: in a state whose cursor is valid, after [undo(k)] and one recorded
    mutation, [redo()] returns and leaves the live sequence as the mutation
    made it.  The entries that were after the cursor reached by the undo are
    gone: the history ends with the entry the mutation recorded, and the
    cursor is on it before and after the redo. *)
Theorem redo_after_new_mutation (st : State) (k : Z) (c : Call) :
  history_ok st ->
  recorded c = true ->
  exists st1 r st2 st3,
    HistoryActions.undo k st = (Return RUndefined, st1) /\
    arrayActions c st1 = (r, st2) /\
    HistoryActions.redo 1 st2 = (Return RUndefined, st3) /\
    ArrayActions.getItems st3 = ArrayActions.getItems st2 /\
    history st2 = take (Z.to_nat (historyIndex st1 + 1)) (history st)
                  ++ [Some (HistoryEntry.mk (length (heap st1)) [])] /\
    JsArray.len (history st2) = historyIndex st1 + 2 /\
    historyIndex st2 = JsArray.len (history st2) - 1 /\
    history st3 = history st2 /\
    historyIndex st3 = historyIndex st2.
Proof.
  intros Hok Hrec.
  destruct (undo_fields st k Hok)
    as (e & st1 & He & Hundo & Hh1 & Hi1 & Hhs1 & Hidx1 & Hlive1).
  pose proof Hok as [Hall Hcur]. unfold cursor_valid in Hcur.
  pose proof (undo_target_range k (historyIndex st) (proj1 Hcur)) as Hr.
  assert (Hcur1 : cursor_valid st1).
  { unfold cursor_valid. rewrite Hhs1, Hidx1. lia. }
  assert (Hitems1 : (items st1 < length (heap st1))%nat).
  { rewrite Hi1, Hh1, length_app. simpl. lia. }
  destruct (recorded_call_fields c st1 Hrec Hcur1 Hitems1)
    as (ev & Hh2 & Hi2 & Hhs2 & Hidx2 & Hlast2 & Hsnap2 & _ & _).
  cbv zeta in *.
  destruct (arrayActions c st1) as [r st2] eqn:Ecall. cbn [snd] in *.
  assert (Hlen2 : JsArray.len (history st2) = historyIndex st1 + 2) by lia.
  assert (Hok2 : history_ok st2).
  { split.
    - unfold entries_present. rewrite Hhs2. apply Forall_app. split.
      + apply Forall_take. rewrite Hhs1. exact Hall.
      + repeat constructor. eauto.
    - unfold cursor_valid. lia. }
  destruct (redo_fields st2 1 Hok2)
    as (e2 & st3 & He2 & Hredo & Hh3 & Hi3 & Hhs3 & Hidx3 & Hlive3).
  assert (Ht : redo_target 1 (historyIndex st2) (JsArray.len (history st2) - 1)
               = historyIndex st2).
  { unfold redo_target.
    destruct (Z.ltb_spec (historyIndex st2) (JsArray.len (history st2) - 1)); lia. }
  rewrite Ht in He2, Hidx3.
  exists st1, r, st2, st3. unfold ArrayActions.getItems.
  repeat apply conj; try assumption; try reflexivity.
  - rewrite Hlive3. unfold snapshot in Hsnap2. rewrite He2 in Hsnap2. congruence.
  - rewrite Hhs2, Hhs1. reflexivity.
Qed.

Lemma redo_after_new_mutation_witness :
  let st := run [Push [VNum 4]; Push [VNum 5]] (magicArray v123 None) in
  exists st1 r st2 st3,
    HistoryActions.undo 1 st = (Return RUndefined, st1) /\
    arrayActions (Push [VNum 9]) st1 = (r, st2) /\
    HistoryActions.redo 1 st2 = (Return RUndefined, st3) /\
    ArrayActions.getItems st3 = ArrayActions.getItems st2 /\
    history st2 = take (Z.to_nat (historyIndex st1 + 1)) (history st)
                  ++ [Some (HistoryEntry.mk (length (heap st1)) [])] /\
    JsArray.len (history st2) = historyIndex st1 + 2 /\
    historyIndex st2 = JsArray.len (history st2) - 1 /\
    history st3 = history st2 /\
    historyIndex st3 = historyIndex st2.
Proof.
  apply (redo_after_new_mutation
           (run [Push [VNum 4]; Push [VNum 5]] (magicArray v123 None)) 1
           (Push [VNum 9])).
  - split; [vm_compute; repeat constructor; eauto |].
    vm_compute; split; [discriminate | reflexivity].
  - reflexivity.
Defined.

(** ** The cursor invariant *)

Lemma originalMethod_history (c : Call) (st : State) :
  history (snd (originalMethod c st)) = history st /\
  historyIndex (snd (originalMethod c st)) = historyIndex st.
Proof. destruct c; split; reflexivity. Qed.

(** Every call of an array action keeps the cursor on an entry. *)
Lemma arrayActions_history_ok (c : Call) (st : State) :
  history_ok st -> history_ok (snd (arrayActions c st)).
Proof.
  intros [Hall Hcur]. unfold arrayActions.
  destruct (originalMethod_history c st) as [Hhs Hidx].
  destruct (recorded c); destruct (originalMethod c st) as [r st1];
    cbn [snd] in *.
  - assert (Hcur1 : cursor_valid st1).
    { unfold cursor_valid. rewrite Hhs, Hidx. exact Hcur. }
    destruct (updateHistory_fields st1 Hcur1) as (_ & _ & Hhs' & Hidx' & Hlast & _).
    cbv zeta in *. split.
    + unfold entries_present. rewrite Hhs'. apply Forall_app. split.
      * apply Forall_take. rewrite Hhs. exact Hall.
      * repeat constructor. eauto.
    + unfold cursor_valid in *. lia.
  - split; [unfold entries_present | unfold cursor_valid];
      rewrite Hhs; [| rewrite Hidx]; assumption.
Qed.

(** [history.push(...entries)]: the new slots follow the old ones, each new
    entry reads as the parsed one in the final store and in every extension
    of it, and nothing else is assigned. *)
Lemma adopt_fields es : forall st,
  exists hs hp,
    history (adopt es st) = history st ++ hs /\
    heap (adopt es st) = heap st ++ hp /\
    (forall hq, view_entry (heap st ++ hp ++ hq) <$> hs = es) /\
    items (adopt es st) = items st /\
    historyIndex (adopt es st) = historyIndex st /\
    delivered (adopt es st) = delivered st.
Proof.
  induction es as [| [[its cps] |] es IH]; intros st; simpl.
  - exists [], []. rewrite !app_nil_r. repeat apply conj; reflexivity.
  - unfold alloc.
    destruct (IH (set_history
                    (history st ++ [Some (HistoryEntry.mk (length (heap st)) cps)])
                    (set_heap (heap st ++ [its]) st)))
      as (hs & hp & Hhs & Hh & Hview & Hi & Hidx & Hd).
    st_simpl.
    exists (Some (HistoryEntry.mk (length (heap st)) cps) :: hs), (its :: hp).
    repeat apply conj; try assumption.
    + rewrite Hhs, <- app_assoc. reflexivity.
    + rewrite Hh, <- app_assoc. reflexivity.
    + intros hq. rewrite fmap_cons. f_equal.
      * unfold view_entry. simpl. do 2 f_equal. unfold read.
        rewrite lookup_app_r by lia.
        replace (length (heap st) - length (heap st))%nat with 0%nat by lia.
        reflexivity.
      * rewrite <- (Hview hq). rewrite <- !app_assoc. reflexivity.
  - destruct (IH (set_history (history st ++ [None]) st))
      as (hs & hp & Hhs & Hh & Hview & Hi & Hidx & Hd).
    st_simpl. exists (None :: hs), hp.
    repeat apply conj; try assumption.
    + rewrite Hhs, <- app_assoc. reflexivity.
    + intros hq. rewrite fmap_cons, Hview. reflexivity.
Qed.

Lemma precondition_stated c st : precondition c st -> stated_precondition c st.
Proof.
  destruct c; simpl; try done; [| lia].
  intros (es & H & _). eauto.
Qed.

Lemma jump_to_entry (st : State) (i : Z) :
  entries_present st -> 0 <= i < JsArray.len (history st) ->
  exists e, JsArray.get (history st) i = Some (Some e).
Proof. intros Hall Hi. apply get_present; assumption. Qed.

Lemma set_checkpoints_ok cps st :
  history_ok st -> history_ok (HistoryActions.set_checkpoints cps st).
Proof.
  intros [Hall Hcur]. unfold HistoryActions.set_checkpoints.
  destruct (JsArray.get _ _) as [[e |] |]; try (split; assumption).
  split.
  - unfold entries_present. st_simpl. apply Forall_insert; [exact Hall | eauto].
  - unfold cursor_valid, JsArray.len in *. st_simpl. rewrite length_insert. exact Hcur.
Qed.

(** [limit(size)] with [size >= 1] leaves at least one entry. *)
Lemma limit_history_ok (st : State) (size : Z) :
  1 <= size -> history_ok st ->
  fst (HistoryActions.limit size st) = Return RUndefined /\
  history_ok (exec (HistoryActions.limit size) st).
Proof.
  intros Hsize [Hall Hcur]. unfold cursor_valid in Hcur.
  unfold HistoryActions.limit. run_m.
  destruct (Z.ltb_spec size (JsArray.len (history st))) as [Hlt | Hge]; run_m.
  - split; [reflexivity |]. rewrite splice_oldest by lia.
    replace (Z.max size 0) with size by lia.
    split; [unfold entries_present | unfold cursor_valid, JsArray.len in *]; st_simpl.
    + apply Forall_drop. exact Hall.
    + rewrite length_drop. lia.
  - split; [reflexivity | split; assumption].
Qed.

(** C1, as the code has it: in a state where every slot holds an entry and
    [0 <= cursor < length(entries)], every history action called within its
    precondition returns and leaves such a state, and so does every array
    action (which runs the recording step when it is a wrapped one).  The
    preconditions are the stated ones except that [limit] needs [size >= 1]
    and [import] a non-empty array of entries. *)
Theorem history_actions_keep_cursor_valid (st : State) :
  history_ok st ->
  (forall c, precondition c st ->
     exists r, fst (historyActions c st) = Return r /\
               history_ok (exec (historyActions c) st)) /\
  (forall c, history_ok (snd (arrayActions c st))).
Proof.
  intros Hok. split; [| intros c; apply arrayActions_history_ok; exact Hok].
  pose proof Hok as [Hall Hcur].
  intros c Hpre. destruct c; simpl in Hpre; simpl historyActions.
  - (* previous *)
    destruct (previous_next_fields st Hok) as [(r & st' & Hp & _ & _ & _ & Hhs & Hif) _].
    unfold exec. rewrite Hp. cbn [fst snd]. eexists. split; [reflexivity |].
    unfold cursor_valid in Hcur.
    split; [unfold entries_present | unfold cursor_valid]; rewrite Hhs; [exact Hall |].
    destruct (Z.ltb_spec 0 (historyIndex st)); lia.
  - (* next *)
    destruct (previous_next_fields st Hok) as [_ (r & st' & Hp & _ & _ & _ & Hhs & Hif)].
    unfold exec. rewrite Hp. cbn [fst snd]. eexists. split; [reflexivity |].
    unfold cursor_valid in Hcur.
    split; [unfold entries_present | unfold cursor_valid]; rewrite Hhs; [exact Hall |].
    destruct (Z.ltb_spec (historyIndex st) (JsArray.len (history st) - 1)); lia.
  - (* clean *)
    unfold HistoryActions.clean. run_m. eexists. split; [reflexivity |].
    unfold cursor_valid, JsArray.len in Hcur.
    rewrite resize_le by lia.
    split; [unfold entries_present | unfold cursor_valid, JsArray.len]; st_simpl.
    + apply Forall_take. exact Hall.
    + rewrite length_take. lia.
  - (* jump *)
    destruct (jump_to_entry st _ Hall Hpre) as [e He].
    unfold HistoryActions.jump, currentEntry, entryAt. run_m. rewrite He. run_m.
    eexists. split; [reflexivity |]. split; [exact Hall | exact Hpre].
  - (* goTo *)
    destruct (jump_to_entry st _ Hall Hpre) as [e He].
    unfold HistoryActions.goTo, currentEntry, entryAt. run_m. rewrite He. run_m.
    eexists. split; [reflexivity |]. split; [exact Hall | exact Hpre].
  - (* saveCheckpoint *)
    destruct (jump_to_entry st _ Hall Hcur) as [e He].
    unfold HistoryActions.saveCheckpoint, currentEntry, entryAt. run_m. rewrite He. run_m.
    eexists. split; [reflexivity |].
    apply (set_checkpoints_ok _ st Hok).
  - (* removeCheckpoint *)
    destruct (jump_to_entry st _ Hall Hcur) as [e He].
    unfold HistoryActions.removeCheckpoint, currentEntry, entryAt. run_m. rewrite He.
    destruct (list_find _ _) as [[i cp] |]; run_m;
      (eexists; split; [reflexivity |]); [| exact Hok].
    apply (set_checkpoints_ok _ st Hok).
  - (* restoreCheckpoint *)
    destruct (jump_to_entry st _ Hall Hcur) as [e He].
    unfold HistoryActions.restoreCheckpoint, currentEntry, entryAt. run_m. rewrite He.
    destruct (list_find _ _) as [[i cp] |]; cbn [fmap option_fmap option_map snd];
      run_m; (eexists; split; [reflexivity |]); [| exact Hok].
    unfold assign_copy, alloc. st_simpl. exact Hok.
  - (* import *)
    destruct Hpre as (es & (l & -> & Hes) & Hne & Hsome).
    unfold HistoryActions.import. run_m. cbn [JSON.parse]. rewrite Hes. run_m.
    eexists. split; [reflexivity |].
    destruct (adopt_fields es (set_history [] st))
      as (hs & hp & Hhs & _ & Hview & _).
    st_simpl. simpl in Hhs. specialize (Hview []).
    assert (Hlen : length hs = length es).
    { rewrite <- Hview. rewrite length_fmap. reflexivity. }
    split; [unfold entries_present | unfold cursor_valid, JsArray.len]; st_simpl;
      rewrite Hhs.
    + rewrite <- Hview in Hsome. rewrite Forall_fmap in Hsome.
      eapply Forall_impl; [exact Hsome |].
      intros [e |] H; [eauto | destruct H; discriminate].
    + destruct es; [done |]. simpl in Hlen. lia.
  - (* limit *)
    destruct (limit_history_ok st size Hpre Hok) as [Hret Hok'].
    eexists. split; [exact Hret | exact Hok'].
  - (* undo *)
    destruct (undo_fields st times Hok) as (e & st' & _ & Hu & _ & _ & Hhs & Hidx & _).
    unfold exec. rewrite Hu. cbn [fst snd]. eexists. split; [reflexivity |].
    unfold cursor_valid in Hcur.
    pose proof (undo_target_range times (historyIndex st) (proj1 Hcur)).
    split; [unfold entries_present | unfold cursor_valid]; rewrite Hhs;
      [exact Hall | lia].
  - (* redo *)
    destruct (redo_fields st times Hok) as (e & st' & _ & Hu & _ & _ & Hhs & Hidx & _).
    unfold exec. rewrite Hu. cbn [fst snd]. eexists. split; [reflexivity |].
    unfold cursor_valid in Hcur.
    pose proof (redo_target_range times (historyIndex st)
                  (JsArray.len (history st) - 1)).
    split; [unfold entries_present | unfold cursor_valid]; rewrite Hhs;
      [exact Hall | lia].
  - (* hasChanges *)
    destruct (jump_to_entry st _ Hall Hcur) as [e He].
    unfold HistoryActions.hasChanges, currentEntry, entryAt. run_m. rewrite He.
    eexists. split; [reflexivity |]. exact Hok.
  - (* listCheckpoints *)
    destruct (jump_to_entry st _ Hall Hcur) as [e He].
    unfold HistoryActions.listCheckpoints, currentEntry, entryAt. run_m. rewrite He.
    eexists. split; [reflexivity |]. exact Hok.
Qed.

(** C1 as stated fails: [limit(0)] meets the stated precondition
    [size >= 0], removes every entry and sets the cursor to -1. *)
Lemma limit_zero_empties_history :
  let st := magicArray v123 None in
  history_ok st /\
  stated_precondition (Limit 0) st /\
  history (exec (historyActions (Limit 0)) st) = [] /\
  historyIndex (exec (historyActions (Limit 0)) st) = -1 /\
  ~ cursor_valid (exec (historyActions (Limit 0)) st).
Proof.
  cbv zeta. unfold history_ok, entries_present, cursor_valid.
  repeat apply conj.
  - vm_compute. repeat constructor. eauto.
  - vm_compute. discriminate.
  - reflexivity.
  - simpl. lia.
  - reflexivity.
  - reflexivity.
  - vm_compute. intros [H _]. apply H. reflexivity.
Qed.

Lemma history_actions_keep_cursor_valid_witness :
  let st := run [Push [VNum 4]; Pop] (magicArray v123 None) in
  history_ok (exec (historyActions (Limit 1)) st) /\
  history_ok (exec (historyActions Clean) st) /\
  history_ok (exec (historyActions (GoTo 1)) st) /\
  history_ok (snd (arrayActions (Splice 1 None []) st)).
Proof.
  assert (Hok : history_ok (run [Push [VNum 4]; Pop] (magicArray v123 None))).
  { split; [vm_compute; repeat constructor; eauto |].
    vm_compute; split; [discriminate | reflexivity]. }
  destruct (history_actions_keep_cursor_valid _ Hok) as [Hh Ha].
  split; [| split; [| split]].
  - destruct (Hh (Limit 1)) as (r & _ & H); [simpl; lia | exact H].
  - destruct (Hh Clean) as (r & _ & H); [exact I | exact H].
  - destruct (Hh (GoTo 1)) as (r & _ & H); [vm_compute; split; [discriminate | reflexivity] | exact H].
  - apply Ha.
Defined.

(** ** Export and import *)








(** An [undefined] element does not survive the export: it comes back as
    [null]. *)
Example import_toJSON_undefined_element :
  let st := magicArray [VUndefined] None in
  view_history st = [Some ([VUndefined], [])] /\
  view_history (exec (HistoryActions.import (HistoryActions.toJSON st)) st)
  = [Some ([VNull], [])].
Proof. vm_compute. split; reflexivity. Qed.

(** Nor do [NaN], the infinities and the sign of zero. *)
Example import_toJSON_number_elements :
  let st := magicArray [VNaN; VInfinity false; VInfinity true; VNegZero] None in
  view_history (exec (HistoryActions.import (HistoryActions.toJSON st)) st)
  = [Some ([VNull; VNull; VNull; VNum 0], [])].
Proof. vm_compute. reflexivity. Qed.

(** ** Array actions that are not recorded *)

(** ["batchPush"] is not in [mutatingMethods]: the call changes the live
    array and notifies, and the history stays as it was. *)
Lemma batchPush_leaves_history (st : State) (l : list value) :
  let st' := snd (arrayActions (BatchPush l) st) in
  history st' = history st /\
  historyIndex st' = historyIndex st /\
  heap st' = write (heap st) (items st) (live st ++ validated st l) /\
  delivered st' = delivered st ++ [("batchAdd"%string, PCopy (live st'))].
Proof. repeat split. Qed.

(** C2 fails for the batch append: on [magicArray([1,2,3])],
    [batchPush([4])] makes the live items [1,2,3,4] while the history keeps
    its single entry [1,2,3] and the cursor stays 0; [push(4)] on the same
    instance records a second entry. *)
Theorem batchPush_records_no_entry :
  let st := magicArray v123 None in
  let st' := snd (arrayActions (BatchPush [VNum 4]) st) in
  let st'' := snd (arrayActions (Push [VNum 4]) st) in
  ArrayActions.getItems st' = v123 ++ [VNum 4] /\
  view_history st' = [Some (v123, [])] /\
  historyIndex st' = 0 /\
  ArrayActions.getItems st'' = v123 ++ [VNum 4] /\
  view_history st'' = [Some (v123, []); Some (v123 ++ [VNum 4], [])] /\
  historyIndex st'' = 1.
Proof. vm_compute. repeat split. Qed.

(** ** Aliasing after goTo and jump *)

(** C5 fails: [goTo] (and [jump]) assign the entry's own array to [items].
    On [magicArray([1,2,3])] after [push(4)], [goTo(0)] followed by [push(9)]
    turns the snapshot of entry 0 from [1,2,3] into [1,2,3,9].  [undo], which
    copies, leaves it alone. *)
Theorem goTo_then_push_alters_snapshot :
  let st0 := run [Push [VNum 4]] (magicArray v123 None) in
  let st1 := exec (HistoryActions.goTo 0) st0 in
  let st2 := snd (arrayActions (Push [VNum 9]) st1) in
  let st1' := exec (HistoryActions.undo 1) st0 in
  let st2' := snd (arrayActions (Push [VNum 9]) st1') in
  fst (HistoryActions.goTo 0 st0) = Return (RItems 1%nat) /\
  snapshot st1 0 = Some v123 /\
  snapshot st2 0 = Some (v123 ++ [VNum 9]) /\
  snapshot st1' 0 = Some v123 /\
  snapshot st2' 0 = Some v123.
Proof. vm_compute. repeat split. Qed.

(** After [goTo(i)] the live variable is entry [i]'s own array, so whatever a
    following recorded call makes of the live items is also what entry [i]
    holds afterwards. *)
Lemma mutation_after_goTo_overwrites_snapshot (st : State) (i : Z)
  (e : HistoryEntry.t) (c : Call) :
  JsArray.get (history st) i = Some (Some e) ->
  (HistoryEntry.items e < length (heap st))%nat ->
  recorded c = true ->
  let st1 := exec (HistoryActions.goTo i) st in
  let st2 := snd (arrayActions c st1) in
  items st1 = HistoryEntry.items e /\
  snapshot st2 i = Some (ArrayActions.getItems st2).
Proof.
  intros He Hval Hrec.
  assert (Hi : 0 <= i < JsArray.len (history st)).
  { unfold JsArray.get in He. destruct (Z.ltb_spec i 0); [discriminate |].
    apply lookup_lt_Some in He. unfold JsArray.len. lia. }
  unfold HistoryActions.goTo, currentEntry, entryAt. run_m. rewrite He. run_m.
  cbv zeta. split; [reflexivity |].
  set (st1 := notifySubscribers _ _ _).
  assert (Hcur1 : cursor_valid st1) by exact Hi.
  assert (Hitems1 : (items st1 < length (heap st1))%nat) by exact Hval.
  destruct (recorded_call_fields c st1 Hrec Hcur1 Hitems1)
    as (ev & Hh & _ & Hhs & _).
  cbv zeta in *. unfold snapshot, ArrayActions.getItems.
  rewrite Hhs. change (historyIndex st1) with i. change (history st1) with (history st).
  rewrite get_nonneg by lia.
  rewrite get_nonneg in He by lia.
  rewrite lookup_app_l by (rewrite length_take; unfold JsArray.len in Hi; lia).
  rewrite lookup_take_lt by lia. rewrite He. f_equal.
  rewrite Hh. change (items st1) with (HistoryEntry.items e).
  change (heap st1) with (heap st).
  unfold read. rewrite lookup_app_l by (rewrite length_write; exact Hval).
  unfold write. rewrite list_lookup_insert_eq by exact Hval. reflexivity.
Qed.

(** ** hasChanges *)

(** [a !== a] is true for [NaN] only. *)
Lemma strict_neq_same (a : value) : strict_neq a a = is_nan a.
Proof.
  destruct a as [| | ? | [| ? | ?] | ? | | | ?]; cbn [strict_neq is_nan];
    try reflexivity; rewrite bool_decide_eq_true_2; reflexivity.
Qed.

(** [a !== b]: one of the two is [NaN], or they are different values and
    not the two zeros. *)
Lemma strict_neq_spec (a b : value) :
  strict_neq a b = true <->
  is_nan a = true \/ is_nan b = true \/
  (a <> b /\ is_zero a && is_zero b = false).
Proof.
  destruct (decide (a = b)) as [-> | Hne].
  - rewrite strict_neq_same. split; [auto |].
    intros [H | [H | [H _]]]; [exact H | exact H | contradiction].
  - assert (Hd : negb (bool_decide (a = b)) = true)
      by (apply negb_true_iff, bool_decide_eq_false; exact Hne).
    destruct a as [| | ? | [| ? | ?] | ? | | | ?],
             b as [| | ? | [| ? | ?] | ? | | | ?];
      cbn [strict_neq is_nan is_zero andb]; split; intros H;
      first [ reflexivity
            | exact Hd
            | discriminate H
            | left; reflexivity
            | right; left; reflexivity
            | right; right; split; [exact Hne | reflexivity]
            | destruct H as [H | [H | [_ H]]]; discriminate H ].
Qed.

(** What [hasChanges] computes: some position of the live array holds an
    element that [!==] tells apart from what the snapshot has there,
    [undefined] where the snapshot is shorter. *)
Lemma some_differs_spec (its cur : list value) :
  some_differs its cur = true <->
  exists i x, its !! i = Some x /\
              strict_neq x (default VUndefined (cur !! i)) = true.
Proof.
  unfold some_differs. rewrite existsb_exists. split.
  - intros (b & Hin & ->). apply list_elem_of_In, list_elem_of_lookup in Hin as [i Hi].
    rewrite list_lookup_imap in Hi.
    destruct (its !! i) as [x |] eqn:Ex; [| discriminate].
    simpl in Hi. injection Hi as Hi. exists i, x. split; [exact Ex | exact Hi].
  - intros (i & x & Hx & Hne). exists true. split; [| reflexivity].
    apply list_elem_of_In, list_elem_of_lookup. exists i.
    rewrite list_lookup_imap, Hx. simpl. f_equal. exact Hne.
Qed.

(** When the live array is a prefix of the snapshot, the equal sequence
    included, the answer is whether the live array holds a [NaN]. *)
Lemma some_differs_prefix (its rest : list value) :
  some_differs its (its ++ rest) = existsb is_nan its.
Proof.
  apply eq_true_iff_eq. rewrite some_differs_spec, existsb_exists. split.
  - intros (i & x & Hx & Hne). exists x.
    rewrite (lookup_app_l_Some _ _ _ _ Hx) in Hne. simpl in Hne.
    rewrite strict_neq_same in Hne. split; [| exact Hne].
    apply list_elem_of_In. eapply list_elem_of_lookup_2. exact Hx.
  - intros (x & Hin & Hnan).
    apply list_elem_of_In, list_elem_of_lookup in Hin as [i Hx].
    exists i, x. split; [exact Hx |].
    rewrite (lookup_app_l_Some _ _ _ _ Hx). simpl.
    rewrite strict_neq_same. exact Hnan.
Qed.

(** When it answers true and the live array holds no [NaN], the two
    sequences differ. *)
Lemma some_differs_sound (its cur : list value) :
  some_differs its cur = true -> existsb is_nan its = false -> its <> cur.
Proof.
  intros H Hnan <-. rewrite <- (app_nil_r its) in H at 2.
  rewrite some_differs_prefix in H. congruence.
Qed.

Lemma no_nan (l : list value) :
  Forall (fun v => v <> VNaN) l -> existsb is_nan l = false.
Proof.
  induction 1 as [| x l Hx _ IH]; [reflexivity |].
  simpl. rewrite IH. destruct x; try reflexivity. contradiction.
Qed.

(** C6 fails when the live sequence is shorter: on [magicArray([1,2])],
    after [pop()] and [previous()] the live items are [1], the snapshot at
    the cursor is [1,2], and [hasChanges()] returns false. *)
Theorem hasChanges_misses_shorter_live :
  let st := exec HistoryActions.previous (run [Pop] (magicArray [VNum 1; VNum 2] None)) in
  ArrayActions.getItems st = [VNum 1] /\
  snapshot st (historyIndex st) = Some [VNum 1; VNum 2] /\
  fst (HistoryActions.hasChanges st) = Return (RBool false).
Proof. vm_compute. repeat split. Qed.

(** [NaN !== NaN]: on a fresh instance holding a [NaN], [hasChanges()]
    answers true although the live items are the snapshot's. *)
Example hasChanges_on_unchanged_nan :
  let st := magicArray [VNaN; VNum 1] None in
  snapshot st (historyIndex st) = Some (ArrayActions.getItems st) /\
  fst (HistoryActions.hasChanges st) = Return (RBool true).
Proof. vm_compute. split; reflexivity. Qed.

(** [hasChanges()] in a state whose cursor is on an entry. *)
Lemma hasChanges_returns (st : State) (cur : list value) :
  snapshot st (historyIndex st) = Some cur ->
  HistoryActions.hasChanges st = (Return (RBool (some_differs (live st) cur)), st).
Proof.
  unfold snapshot, HistoryActions.hasChanges, currentEntry, entryAt. run_m.
  destruct (JsArray.get _ _) as [[e |] |]; try discriminate.
  intros [= <-]. reflexivity.
Qed.

(** ** References stay inside the store

    Whatever is called, and whether it returns or throws, the live variable
    and every history entry keep pointing at an allocated array. *)

Lemma entry_in_mono (n m : nat) e : (n <= m)%nat -> entry_in n e -> entry_in m e.
Proof. destruct e; simpl; lia. Qed.

Lemma entries_in_mono (n m : nat) hs :
  (n <= m)%nat -> Forall (entry_in n) hs -> Forall (entry_in m) hs.
Proof.
  intros Hnm H. eapply Forall_impl; [exact H |].
  intros e. apply entry_in_mono, Hnm.
Qed.

Lemma store_ok_magicArray initial vf : store_ok (magicArray initial vf).
Proof.
  unfold store_ok, magicArray, alloc. st_simpl. simpl. split; [lia |].
  repeat constructor.
Qed.

Lemma store_ok_mutate f st : store_ok st -> store_ok (mutate_items f st).
Proof.
  intros [Hi Hh]. unfold store_ok, mutate_items. st_simpl.
  rewrite length_write. split; assumption.
Qed.

Lemma store_ok_assign_copy a st : store_ok st -> store_ok (assign_copy a st).
Proof.
  intros [Hi Hh]. unfold store_ok, assign_copy, alloc. st_simpl.
  rewrite length_app. simpl. split; [lia |].
  eapply entries_in_mono; [| exact Hh]. lia.
Qed.

Lemma store_ok_updateHistory st : store_ok st -> store_ok (updateHistory st).
Proof.
  intros [Hi Hh]. unfold store_ok, updateHistory, alloc, JsArray.splice_from,
    JsArray.ztake. st_simpl. rewrite length_app. simpl. split; [lia |].
  apply Forall_app. split.
  - apply Forall_take. eapply entries_in_mono; [| exact Hh]. lia.
  - repeat constructor. simpl. lia.
Qed.

Lemma store_ok_arrayActions (c : Call) (st : State) :
  store_ok st -> store_ok (snd (arrayActions c st)).
Proof.
  intros Hok.
  assert (Horig : store_ok (snd (originalMethod c st))).
  { destruct c; simpl;
      first [ apply (store_ok_mutate _ st Hok) | exact Hok ]. }
  unfold arrayActions. destruct (recorded c);
    destruct (originalMethod c st) as [r st1]; cbn [snd] in *;
    [apply store_ok_updateHistory |]; exact Horig.
Qed.

Lemma store_ok_adopt es : forall st, store_ok st -> store_ok (adopt es st).
Proof.
  induction es as [| [[its cps] |] es IH]; intros st [Hi Hh]; simpl.
  - split; assumption.
  - unfold alloc. apply IH. unfold store_ok. st_simpl.
    rewrite length_app. simpl. split; [lia |].
    apply Forall_app. split.
    + eapply entries_in_mono; [| exact Hh]. lia.
    + repeat constructor. simpl. lia.
  - apply IH. unfold store_ok. st_simpl. split; [exact Hi |].
    apply Forall_app. split; [exact Hh | repeat constructor].
Qed.

Lemma entry_in_lookup (st : State) (i : Z) (e : HistoryEntry.t) :
  store_ok st -> JsArray.get (history st) i = Some (Some e) ->
  (HistoryEntry.items e < length (heap st))%nat.
Proof.
  intros [_ Hh] He. unfold JsArray.get in He.
  destruct (i <? 0); [discriminate |].
  rewrite Forall_lookup in Hh. exact (Hh _ _ He).
Qed.

Lemma store_ok_set_checkpoints cps st :
  store_ok st -> store_ok (HistoryActions.set_checkpoints cps st).
Proof.
  intros Hok. pose proof Hok as [Hi Hh]. unfold HistoryActions.set_checkpoints.
  destruct (JsArray.get _ _) as [[e |] |] eqn:He; try exact Hok.
  split; st_simpl; [exact Hi |].
  apply Forall_insert; [exact Hh |]. simpl.
  exact (entry_in_lookup st _ e Hok He).
Qed.

Lemma store_ok_goto (st : State) (i : Z) (ev : string) :
  store_ok st ->
  store_ok
    (exec (modify (set_historyIndex i);;
           let* e := currentEntry in
           modify (set_items (HistoryEntry.items e));;
           modify (fun st => notifySubscribers ev (PItems (items st)) st);;
           let* st := get in
           ret (RItems (items st))) st).
Proof.
  intros Hok. unfold currentEntry, entryAt. run_m.
  destruct (JsArray.get (history st) i) as [[e |] |] eqn:He; run_m; try exact Hok.
  destruct Hok as [Hi Hh]. split; st_simpl; [| exact Hh].
  exact (entry_in_lookup st i e (conj Hi Hh) He).
Qed.

Lemma store_ok_historyActions (c : HistoryCall) (st : State) :
  store_ok st -> store_ok (exec (historyActions c) st).
Proof.
  intros Hok. pose proof Hok as [Hi Hh]. destruct c; simpl historyActions.
  - destruct (previous_next_frame st) as [(H1 & H2 & H3) _].
    unfold store_ok. rewrite H1, H2, H3. exact Hok.
  - destruct (previous_next_frame st) as [_ (H1 & H2 & H3)].
    unfold store_ok. rewrite H1, H2, H3. exact Hok.
  - unfold HistoryActions.clean. run_m. split; st_simpl; [exact Hi |].
    rewrite resize_spec. apply Forall_app. split.
    + apply Forall_take. exact Hh.
    + apply Forall_replicate. exact I.
  - apply (store_ok_goto st (historyIndex st + number) "jump" Hok).
  - apply (store_ok_goto st index "goTo" Hok).
  - unfold HistoryActions.saveCheckpoint, currentEntry, entryAt. run_m.
    destruct (JsArray.get _ _) as [[e |] |]; run_m; try exact Hok.
    apply (store_ok_set_checkpoints _ st Hok).
  - unfold HistoryActions.removeCheckpoint, currentEntry, entryAt. run_m.
    destruct (JsArray.get _ _) as [[e |] |]; run_m; try exact Hok.
    destruct (list_find _ _) as [[i cp] |]; run_m; [| exact Hok].
    apply (store_ok_set_checkpoints _ st Hok).
  - unfold HistoryActions.restoreCheckpoint, currentEntry, entryAt. run_m.
    destruct (JsArray.get _ _) as [[e |] |]; run_m; try exact Hok.
    destruct (list_find _ _) as [[i cp] |];
      cbn [fmap option_fmap option_map snd]; run_m; [| exact Hok].
    apply (store_ok_assign_copy _ st Hok).
  - unfold HistoryActions.import. run_m.
    assert (Hempty : store_ok (set_history [] st)) by (split; [exact Hi | constructor]).
    destruct (JSON.parse serialized) as [doc |]; run_m; [| exact Hok].
    destruct doc; run_m; try exact Hempty.
    destruct (mapM JSON.to_entry l) as [es |]; run_m; [| exact Hempty].
    apply (store_ok_adopt es _ Hempty).
  - unfold HistoryActions.limit. run_m.
    destruct (size <? JsArray.len (history st)); run_m; [| exact Hok].
    split; st_simpl; [exact Hi |].
    unfold JsArray.splice, JsArray.ztake, JsArray.zdrop. cbn [snd app].
    apply Forall_app. split; [apply Forall_take | apply Forall_drop]; exact Hh.
  - unfold HistoryActions.undo, currentEntry, entryAt. run_m.
    destruct (JsArray.get _ _) as [[e |] |]; run_m; try exact Hok.
    apply (store_ok_assign_copy _ _ Hok).
  - unfold HistoryActions.redo, currentEntry, entryAt. run_m.
    destruct (JsArray.get _ _) as [[e |] |]; run_m; try exact Hok.
    apply (store_ok_assign_copy _ _ Hok).
  - unfold HistoryActions.hasChanges, currentEntry, entryAt. run_m.
    destruct (JsArray.get _ _) as [[e |] |]; run_m; exact Hok.
  - unfold HistoryActions.listCheckpoints, currentEntry, entryAt. run_m.
    destruct (JsArray.get _ _) as [[e |] |]; run_m; exact Hok.
Qed.

(** Every reachable state keeps its references inside the store. *)
Lemma reachable_store_ok (st : State) : reachable st -> store_ok st.
Proof.
  induction 1 as [initial vf | c st _ IH | c st _ IH].
  - apply store_ok_magicArray.
  - apply store_ok_arrayActions, IH.
  - apply store_ok_historyActions, IH.
Qed.

(** In a reachable state, a recorded call after [goTo(i)] on an entry
    rewrites that entry's snapshot. *)
Lemma reachable_goTo_aliases (st : State) (i : Z) (e : HistoryEntry.t) (c : Call) :
  reachable st ->
  JsArray.get (history st) i = Some (Some e) ->
  recorded c = true ->
  snapshot (snd (arrayActions c (exec (HistoryActions.goTo i) st))) i
  = Some (ArrayActions.getItems
            (snd (arrayActions c (exec (HistoryActions.goTo i) st)))).
Proof.
  intros Hreach He Hrec.
  apply (mutation_after_goTo_overwrites_snapshot st i e c He); [| exact Hrec].
  exact (entry_in_lookup st i e (reachable_store_ok st Hreach) He).
Qed.

(** * Further properties of the code *)

(** ** Recorded calls in any reachable state *)

Lemma recorded_call_live (c : Call) (st : State) f ev :
  recorded c = true ->
  snd (originalMethod c st) = notifyListeners ev (mutate_items f st) ->
  (items st < length (heap st))%nat ->
  live (snd (arrayActions c st)) = f (live st) /\
  items (snd (arrayActions c st)) = items st.
Proof.
  intros Hrec Hst1 Hval. unfold arrayActions. rewrite Hrec.
  destruct (originalMethod c st) as [r st1]. cbn [snd] in *. subst st1.
  unfold updateHistory, alloc, live, mutate_items. st_simpl.
  split; [| reflexivity].
  unfold read. rewrite lookup_app_l by (rewrite length_write; exact Hval).
  unfold write. rewrite list_lookup_insert_eq by exact Hval. reflexivity.
Qed.

Lemma recorded_call_end_state (st : State) (c : Call) :
  (items st < length (heap st))%nat ->
  recorded c = true ->
  let st' := snd (arrayActions c st) in
  cursor_valid st' /\
  historyIndex st' = JsArray.len (history st') - 1 /\
  snapshot st' (historyIndex st') = Some (ArrayActions.getItems st') /\
  HistoryActions.listCheckpoints st' = (Return (RCheckpoints []), st') /\
  HistoryActions.hasChanges st'
  = (Return (RBool (existsb is_nan (ArrayActions.getItems st'))), st').
Proof.
  intros Hval Hrec.
  destruct (originalMethod_mutates c st Hrec) as (f & ev & Hst1).
  destruct (recorded_call_live c st f ev Hrec Hst1 Hval) as [Hlive _].
  assert (Harr : snd (arrayActions c st)
                 = updateHistory (notifyListeners ev (mutate_items f st))).
  { unfold arrayActions. rewrite Hrec.
    destruct (originalMethod c st) as [r st1]. cbn [snd] in *. congruence. }
  cbv zeta. unfold ArrayActions.getItems. rewrite Hlive. rewrite Harr in *.
  clear Harr Hst1.
  set (prefix := snd (JsArray.splice_from
                        (historyIndex (notifyListeners ev (mutate_items f st)) + 1)
                        (history (notifyListeners ev (mutate_items f st))))).
  set (h1 := heap (notifyListeners ev (mutate_items f st))).
  set (new := HistoryEntry.mk (length h1) []).
  assert (Hhs : history (updateHistory (notifyListeners ev (mutate_items f st)))
                = prefix ++ [Some new]) by reflexivity.
  assert (Hidx : historyIndex (updateHistory (notifyListeners ev (mutate_items f st)))
                 = JsArray.len (prefix ++ [Some new]) - 1) by reflexivity.
  assert (Hheap : heap (updateHistory (notifyListeners ev (mutate_items f st)))
                  = h1 ++ [f (live st)]).
  { unfold updateHistory, alloc. st_simpl. fold h1. f_equal. f_equal.
    unfold live, mutate_items. st_simpl. apply read_write_same. exact Hval. }
  assert (Hlen : JsArray.len (prefix ++ [Some new]) - 1 = Z.of_nat (length prefix)).
  { unfold JsArray.len. rewrite length_app. simpl. lia. }
  assert (Hget : JsArray.get (prefix ++ [Some new]) (Z.of_nat (length prefix))
                 = Some (Some new)).
  { rewrite get_nonneg by lia. rewrite Nat2Z.id, lookup_app_r by lia.
    replace (length prefix - length prefix)%nat with 0%nat by lia. reflexivity. }
  assert (Hsnap : read (h1 ++ [f (live st)]) (HistoryEntry.items new) = f (live st)).
  { change (h1 ++ [f (live st)]) with (fst (alloc h1 (f (live st)))).
    change (HistoryEntry.items new) with (snd (alloc h1 (f (live st)))).
    apply read_alloc_new. }
  repeat apply conj.
  - rewrite Hidx, Hlen. lia.
  - rewrite Hidx, Hhs, Hlen. unfold JsArray.len. rewrite length_app. simpl. lia.
  - rewrite Hidx, Hhs. reflexivity.
  - unfold snapshot. rewrite Hidx, Hhs, Hlen, Hget, Hheap, Hsnap. reflexivity.
  - unfold HistoryActions.listCheckpoints, currentEntry, entryAt. run_m.
    rewrite Hidx, Hhs, Hlen, Hget. reflexivity.
  - rewrite (hasChanges_returns _ (f (live st))).
    + unfold ArrayActions.getItems. rewrite Hlive.
      rewrite <- (app_nil_r (f (live st))) at 2.
      rewrite some_differs_prefix. reflexivity.
    + unfold snapshot. rewrite Hidx, Hhs, Hlen, Hget, Hheap, Hsnap. reflexivity.
Qed.



(** ** Validation on push *)

(** [push] appends the accepted items in order and returns the new length; a
    push whose items are all rejected leaves the live items as they are and
    still records a history entry. *)
Theorem push_appends_accepted_and_records (st : State) (l : list value) :
  reachable st ->
  cursor_valid st ->
  let '(r, st') := arrayActions (Push l) st in
  ArrayActions.getItems st' = ArrayActions.getItems st ++ validated st l /\
  r = RNumber (JsArray.len (ArrayActions.getItems st')) /\
  JsArray.len (history st') = historyIndex st + 2 /\
  historyIndex st' = historyIndex st + 1 /\
  (forall f, validationFn st = Some f -> Forall (fun x => f x = false) l ->
   ArrayActions.getItems st' = ArrayActions.getItems st).
Proof.
  intros Hreach Hcur. apply reachable_store_ok in Hreach as [Hval _].
  destruct (recorded_call_live (Push l) st (fun l0 => l0 ++ validated st l) "add"
              eq_refl eq_refl Hval) as [Hlive _].
  destruct (recorded_call_fields (Push l) st eq_refl Hcur Hval)
    as (ev & _ & _ & Hhs & Hidx & Hlast & _).
  cbv zeta in *.
  assert (Hr : fst (arrayActions (Push l) st)
               = RNumber (JsArray.len (live st ++ validated st l))).
  { unfold arrayActions, recorded. simpl. f_equal. f_equal.
    unfold live, mutate_items. st_simpl. apply read_write_same. exact Hval. }
  destruct (arrayActions (Push l) st) as [r st']. cbn [fst snd] in *.
  unfold ArrayActions.getItems. rewrite Hlive.
  repeat apply conj; try done; [lia |].
  intros f Ef Hrej. rewrite <- (app_nil_r (live st)) at 2. f_equal.
  unfold validated. rewrite Ef. clear -Hrej.
  induction Hrej as [| x l Hx _ IH]; [reflexivity |].
  simpl. rewrite Hx. exact IH.
Qed.

Lemma push_appends_accepted_and_records_witness :
  let st := magicArray v123 (Some (fun v => bool_decide (v = VNum 7))) in
  let l := [VNum 1; VNum 7; VNum 2] in
  validated st l = [VNum 7] /\
  let '(r, st') := arrayActions (Push l) st in
  ArrayActions.getItems st' = ArrayActions.getItems st ++ validated st l /\
  r = RNumber (JsArray.len (ArrayActions.getItems st')) /\
  JsArray.len (history st') = historyIndex st + 2 /\
  historyIndex st' = historyIndex st + 1 /\
  (forall f, validationFn st = Some f -> Forall (fun x => f x = false) l ->
   ArrayActions.getItems st' = ArrayActions.getItems st).
Proof.
  split; [reflexivity |].
  apply (push_appends_accepted_and_records
           (magicArray v123 (Some (fun v => bool_decide (v = VNum 7))))
           [VNum 1; VNum 7; VNum 2]).
  - apply reachable_fresh.
  - vm_compute. split; [discriminate | reflexivity].
Defined.

(** ** splice without a delete count *)

Lemma splice_to_end {A} (start : Z) (add l : list A) :
  JsArray.splice start (JsArray.len l - start) add l
  = (JsArray.zdrop (JsArray.relative (JsArray.len l) start) l,
     JsArray.ztake (JsArray.relative (JsArray.len l) start) l ++ add).
Proof.
  unfold JsArray.splice.
  set (s := JsArray.relative (JsArray.len l) start).
  assert (Hs : 0 <= s <= JsArray.len l).
  { unfold s, JsArray.relative, JsArray.len.
    destruct (Z.ltb_spec start 0); lia. }
  assert (Hdc : Z.min (Z.max (JsArray.len l - start) 0) (JsArray.len l - s)
                = JsArray.len l - s).
  { unfold s, JsArray.relative, JsArray.len in *.
    destruct (Z.ltb_spec start 0); lia. }
  rewrite Hdc. unfold JsArray.ztake, JsArray.zdrop, JsArray.len in *.
  f_equal.
  - apply take_ge. rewrite length_drop. lia.
  - f_equal. rewrite drop_ge by lia. apply app_nil_r.
Qed.

(** [splice(start, undefined, ...addItems)]: for every [start], negative or
    past the end included, everything from the (clamped) start on is removed
    and returned, and the new items take its place. *)
Theorem splice_default_removes_to_end (st : State) (start : Z)
  (addItems : list value) :
  reachable st ->
  let s := JsArray.relative (JsArray.len (ArrayActions.getItems st)) start in
  let '(r, st') := arrayActions (Splice start None addItems) st in
  r = RArray (JsArray.zdrop s (ArrayActions.getItems st)) /\
  ArrayActions.getItems st'
  = JsArray.ztake s (ArrayActions.getItems st) ++ addItems.
Proof.
  intros Hreach. apply reachable_store_ok in Hreach as [Hval _].
  set (dc := JsArray.len (live st) - start).
  destruct (recorded_call_live (Splice start None addItems) st
              (fun l0 => snd (JsArray.splice start dc addItems l0)) "splice"
              eq_refl eq_refl Hval) as [Hlive _].
  assert (Hr : fst (arrayActions (Splice start None addItems) st)
               = RArray (fst (JsArray.splice start dc addItems (live st))))
    by reflexivity.
  destruct (arrayActions (Splice start None addItems) st) as [r st'].
  cbn [fst snd] in *. cbv zeta. unfold ArrayActions.getItems.
  rewrite Hr, Hlive. unfold dc. rewrite splice_to_end. split; reflexivity.
Qed.

Lemma splice_default_removes_to_end_witness :
  let st := magicArray v123 None in
  let '(r, st') := arrayActions (Splice (-2) None [VNum 9]) st in
  r = RArray [VNum 2; VNum 3] /\
  ArrayActions.getItems st' = [VNum 1; VNum 9].
Proof.
  apply (splice_default_removes_to_end (magicArray v123 None) (-2) [VNum 9]).
  apply reachable_fresh.
Defined.

(** ** Where undo and redo stop *)

(** [undo(times)] with the cursor on an entry: the cursor goes down by
    [times], not below 0; a negative count goes all the way to 0.  The live
    variable gets a new array holding that entry's snapshot, and the history
    is not touched. *)
Theorem undo_cursor (st : State) (times : Z) :
  reachable st ->
  history_ok st ->
  exists st',
    HistoryActions.undo times st = (Return RUndefined, st') /\
    historyIndex st'
      = (if times <? 0 then 0 else Z.max 0 (historyIndex st - times)) /\
    snapshot st (historyIndex st') = Some (ArrayActions.getItems st') /\
    history st' = history st /\
    Forall (fun slot : option HistoryEntry.t =>
              match slot with
              | Some e => HistoryEntry.items e <> items st'
              | None => True
              end) (history st').
Proof.
  intros Hreach Hok. apply reachable_store_ok in Hreach as [_ Hin].
  destruct (undo_fields st times Hok)
    as (e & st' & He & Hu & Hh & Hi & Hhs & Hidx & Hlive).
  exists st'. destruct Hok as [_ Hcur]. unfold cursor_valid in Hcur.
  repeat apply conj; try assumption.
  - rewrite Hidx. unfold undo_target.
    destruct (Z.ltb_spec 0 (historyIndex st)), (Z.ltb_spec times 0); lia.
  - unfold snapshot, ArrayActions.getItems. rewrite Hidx, He, Hlive. reflexivity.
  - rewrite Hhs, Hi. eapply Forall_impl; [exact Hin |].
    intros [e' |]; simpl; lia.
Qed.

Lemma undo_cursor_witness :
  let st := run [Push [VNum 4]; Push [VNum 5]] (magicArray v123 None) in
  exists st',
    HistoryActions.undo (-1) st = (Return RUndefined, st') /\
    historyIndex st' = 0 /\
    ArrayActions.getItems st' = v123.
Proof.
  destruct (undo_cursor (run [Push [VNum 4]; Push [VNum 5]] (magicArray v123 None)) (-1))
    as (st' & Hu & Hidx & Hsnap & _).
  - do 2 apply reachable_array. apply reachable_fresh.
  - split; [vm_compute; repeat constructor; eauto |].
    vm_compute; split; [discriminate | reflexivity].
  - exists st'. split; [exact Hu |]. split; [exact Hidx |].
    rewrite Hidx in Hsnap.
    change (Some v123 = Some (ArrayActions.getItems st')) in Hsnap. congruence.
Defined.

(** [redo(times)] with the cursor on an entry: the cursor goes up by [times],
    not past the last entry; a negative count goes all the way to the last
    entry.  The live variable gets a new array holding that entry's
    snapshot. *)
Theorem redo_cursor (st : State) (times : Z) :
  reachable st ->
  history_ok st ->
  exists st',
    HistoryActions.redo times st = (Return RUndefined, st') /\
    historyIndex st'
      = (if times <? 0 then JsArray.len (history st) - 1
         else Z.min (JsArray.len (history st) - 1) (historyIndex st + times)) /\
    snapshot st (historyIndex st') = Some (ArrayActions.getItems st') /\
    history st' = history st /\
    Forall (fun slot : option HistoryEntry.t =>
              match slot with
              | Some e => HistoryEntry.items e <> items st'
              | None => True
              end) (history st').
Proof.
  intros Hreach Hok. apply reachable_store_ok in Hreach as [_ Hin].
  destruct (redo_fields st times Hok)
    as (e & st' & He & Hu & Hh & Hi & Hhs & Hidx & Hlive).
  exists st'. destruct Hok as [_ Hcur]. unfold cursor_valid in Hcur.
  repeat apply conj; try assumption.
  - rewrite Hidx. unfold redo_target.
    destruct (Z.ltb_spec (historyIndex st) (JsArray.len (history st) - 1)),
      (Z.ltb_spec times 0); lia.
  - unfold snapshot, ArrayActions.getItems. rewrite Hidx, He, Hlive. reflexivity.
  - rewrite Hhs, Hi. eapply Forall_impl; [exact Hin |].
    intros [e' |]; simpl; lia.
Qed.

Lemma redo_cursor_witness :
  let st := exec (HistoryActions.undo 2)
                 (run [Push [VNum 4]; Push [VNum 5]] (magicArray v123 None)) in
  exists st',
    HistoryActions.redo 7 st = (Return RUndefined, st') /\
    historyIndex st' = 2 /\
    ArrayActions.getItems st' = v123 ++ [VNum 4; VNum 5].
Proof.
  destruct (redo_cursor
              (exec (HistoryActions.undo 2)
                    (run [Push [VNum 4]; Push [VNum 5]] (magicArray v123 None))) 7)
    as (st' & Hu & Hidx & Hsnap & _).
  - apply (reachable_history (Undo 2)). do 2 apply reachable_array.
    apply reachable_fresh.
  - split; [vm_compute; repeat constructor; eauto |].
    vm_compute; split; [discriminate | reflexivity].
  - exists st'. split; [exact Hu |]. split; [exact Hidx |].
    rewrite Hidx in Hsnap.
    change (Some (v123 ++ [VNum 4; VNum 5]) = Some (ArrayActions.getItems st'))
      in Hsnap.
    congruence.
Defined.

(** ** Snapshots after undo *)

(** [undo] copies: after [undo(times)] and any recorded call, every snapshot
    up to the cursor the undo reached is what it was before. *)
Theorem mutation_after_undo_keeps_snapshots (st : State) (times : Z) (c : Call) :
  reachable st ->
  history_ok st ->
  recorded c = true ->
  let st1 := exec (HistoryActions.undo times) st in
  let st2 := snd (arrayActions c st1) in
  forall i, 0 <= i <= historyIndex st1 -> snapshot st2 i = snapshot st i.
Proof.
  intros Hreach Hok Hrec st1 st2 i Hi.
  pose proof (reachable_store_ok st Hreach) as [Hval Hin].
  destruct (undo_fields st times Hok)
    as (e & st1' & He & Hu & Hh1 & Hi1 & Hhs1 & Hidx1 & Hlive1).
  assert (Est1 : st1 = st1') by (unfold st1, exec; rewrite Hu; reflexivity).
  clearbody st1. subst st1'.
  pose proof Hok as [Hall Hcur]. unfold cursor_valid in Hcur.
  pose proof (undo_target_range times (historyIndex st) (proj1 Hcur)) as Hr.
  assert (Hcur1 : cursor_valid st1).
  { unfold cursor_valid. rewrite Hhs1, Hidx1. lia. }
  assert (Hitems1 : (items st1 < length (heap st1))%nat).
  { rewrite Hi1, Hh1, length_app. simpl. lia. }
  destruct (recorded_call_fields c st1 Hrec Hcur1 Hitems1)
    as (ev & Hh2 & _ & Hhs2 & _).
  cbv zeta in Hh2, Hhs2. fold st2 in Hh2, Hhs2.
  unfold snapshot. rewrite Hhs2, Hhs1. rewrite !get_nonneg by lia.
  unfold JsArray.len in Hcur.
  rewrite lookup_app_l by (rewrite length_take; lia).
  rewrite lookup_take_lt by lia.
  destruct (history st !! Z.to_nat i) as [[e' |] |] eqn:Ei; try reflexivity.
  f_equal. rewrite Forall_lookup in Hin. specialize (Hin _ _ Ei). simpl in Hin.
  rewrite Hh2, Hi1, Hh1. unfold read.
  rewrite lookup_app_l by (rewrite length_write, length_app; simpl; lia).
  unfold write. rewrite list_lookup_insert_ne by lia.
  rewrite lookup_app_l by lia. reflexivity.
Qed.

Lemma mutation_after_undo_keeps_snapshots_witness :
  let st := run [Push [VNum 4]] (magicArray v123 None) in
  let st1 := exec (HistoryActions.undo 1) st in
  let st2 := snd (arrayActions (Push [VNum 9]) st1) in
  snapshot st 0 = Some v123 /\
  forall i, 0 <= i <= historyIndex st1 -> snapshot st2 i = snapshot st i.
Proof.
  split; [reflexivity |].
  apply (mutation_after_undo_keeps_snapshots
           (run [Push [VNum 4]] (magicArray v123 None)) 1 (Push [VNum 9])).
  - apply reachable_array, reachable_fresh.
  - split; [vm_compute; repeat constructor; eauto |].
    vm_compute; split; [discriminate | reflexivity].
  - reflexivity.
Defined.

(** ** An empty history *)

(** With no entry left (after [limit(0)] or the import of an empty array)
    every action that reads the entry at the cursor throws a [TypeError],
    whatever the cursor is; it changes neither the live items nor the
    history and notifies nobody. *)
Theorem empty_history_throws (st : State) (c : HistoryCall) :
  history st = [] ->
  match c with
  | Undo _ | Redo _ | HasChanges | ListCheckpoints | SaveCheckpoint _
  | RemoveCheckpoint _ | RestoreCheckpoint _ | GoTo _ | Jump _ =>
    fst (historyActions c st) = Throw TypeError /\
    ArrayActions.getItems (exec (historyActions c) st) = ArrayActions.getItems st /\
    history (exec (historyActions c) st) = [] /\
    delivered (exec (historyActions c) st) = delivered st
  | Previous | Next | Clean | Import _ | Limit _ => True
  end.
Proof.
  intros Hempty.
  assert (Hget : forall i, JsArray.get (history st) i = None).
  { intros i. rewrite Hempty. unfold JsArray.get. destruct (i <? 0); reflexivity. }
  destruct c; try exact I; simpl historyActions;
    unfold HistoryActions.undo, HistoryActions.redo, HistoryActions.hasChanges,
      HistoryActions.listCheckpoints, HistoryActions.saveCheckpoint,
      HistoryActions.removeCheckpoint, HistoryActions.restoreCheckpoint,
      HistoryActions.goTo, HistoryActions.jump, currentEntry, entryAt;
    run_m; rewrite Hget; cbn [fst snd]; unfold ArrayActions.getItems, live;
    st_simpl; repeat split; exact Hempty.
Qed.

Lemma empty_history_throws_witness :
  let st := exec (HistoryActions.limit 0) (magicArray v123 None) in
  fst (historyActions (Undo 1) st) = Throw TypeError /\
  ArrayActions.getItems (exec (historyActions (Undo 1)) st) = v123 /\
  history (exec (historyActions (Undo 1)) st) = [] /\
  delivered (exec (historyActions (Undo 1)) st) = delivered st.
Proof.
  apply (empty_history_throws
           (exec (HistoryActions.limit 0) (magicArray v123 None)) (Undo 1)).
  reflexivity.
Defined.

(** ** goTo and jump outside the history *)

(** [goTo(index)] with [index] outside [0, length): the cursor is assigned
    first, then reading the entry throws a [TypeError].  The failed call
    leaves the cursor at [index], outside the history; the live items, the
    history and the listeners are left alone.  [jump] does the same with
    [historyIndex + number]. *)
Theorem goTo_out_of_range (st : State) (index : Z) :
  ~ (0 <= index < JsArray.len (history st)) ->
  HistoryActions.goTo index st = (Throw TypeError, set_historyIndex index st) /\
  HistoryActions.jump (index - historyIndex st) st
  = (Throw TypeError, set_historyIndex index st) /\
  ~ cursor_valid (exec (HistoryActions.goTo index) st).
Proof.
  intros Hout.
  assert (Hget : JsArray.get (history st) index = None).
  { unfold JsArray.get. destruct (Z.ltb_spec index 0); [reflexivity |].
    apply lookup_ge_None. unfold JsArray.len in Hout. lia. }
  unfold HistoryActions.goTo, HistoryActions.jump, currentEntry, entryAt,
    cursor_valid. run_m.
  replace (historyIndex st + (index - historyIndex st)) with index by lia.
  rewrite Hget. cbn [snd]. st_simpl. repeat split; exact Hout.
Qed.

Lemma goTo_out_of_range_witness :
  let st := magicArray v123 None in
  HistoryActions.goTo 5 st = (Throw TypeError, set_historyIndex 5 st) /\
  HistoryActions.jump (5 - historyIndex st) st
  = (Throw TypeError, set_historyIndex 5 st) /\
  ~ cursor_valid (exec (HistoryActions.goTo 5) st).
Proof.
  apply (goTo_out_of_range (magicArray v123 None) 5).
  vm_compute. intros [_ H]. discriminate H.
Defined.

(** ** hasChanges *)

(** [hasChanges()] with the cursor on an entry returns without changing the
    state; it answers true exactly when some position of the live array holds
    an element that [!==] tells apart from the one the snapshot has there
    ([undefined] past the snapshot's end): one of the two is [NaN], or they
    are different values and not the two zeros.  When the live array is a
    prefix of the snapshot, the equal sequence included, the answer is
    whether the live array holds a [NaN]; when it holds none, true means the
    two sequences differ. *)
Theorem hasChanges_answer (st : State) (cur : list value) :
  snapshot st (historyIndex st) = Some cur ->
  exists b,
    HistoryActions.hasChanges st = (Return (RBool b), st) /\
    (b = true <->
     exists i x, ArrayActions.getItems st !! i = Some x /\
                 (is_nan x = true \/
                  is_nan (default VUndefined (cur !! i)) = true \/
                  (x <> default VUndefined (cur !! i) /\
                   is_zero x && is_zero (default VUndefined (cur !! i)) = false))) /\
    (forall rest, cur = ArrayActions.getItems st ++ rest ->
                  b = existsb is_nan (ArrayActions.getItems st)) /\
    (Forall (fun v => v <> VNaN) (ArrayActions.getItems st) ->
     b = true -> ArrayActions.getItems st <> cur).
Proof.
  intros Hsnap. exists (some_differs (live st) cur).
  split; [apply hasChanges_returns, Hsnap |].
  unfold ArrayActions.getItems. split; [| split].
  - rewrite some_differs_spec.
    split; intros (i & x & Hx & H); exists i, x; (split; [exact Hx |]);
      apply strict_neq_spec; exact H.
  - intros rest ->. apply some_differs_prefix.
  - intros Hno Hb. apply some_differs_sound; [exact Hb | apply no_nan, Hno].
Qed.

Lemma hasChanges_answer_witness :
  let st := snd (arrayActions (BatchPush [VNum 4]) (magicArray v123 None)) in
  exists b,
    HistoryActions.hasChanges st = (Return (RBool b), st) /\
    b = true.
Proof.
  destruct (hasChanges_answer
              (snd (arrayActions (BatchPush [VNum 4]) (magicArray v123 None))) v123)
    as (b & Hh & Hb & _); [reflexivity |].
  exists b. split; [exact Hh |].
  apply Hb. exists 3%nat, (VNum 4). split; [reflexivity |].
  right. right. split; [discriminate | reflexivity].
Defined.

(** After [goTo(i)] the live array is entry [i]'s: an unrecorded change such
    as [batchPush] rewrites that snapshot, and [hasChanges()] does not see
    what was pushed.  It answers whether the live items hold a [NaN]: false
    whenever they hold none. *)
Theorem batchPush_after_goTo_goes_unnoticed (st : State) (i : Z)
  (e : HistoryEntry.t) (l : list value) :
  reachable st ->
  JsArray.get (history st) i = Some (Some e) ->
  let st1 := exec (HistoryActions.goTo i) st in
  let st2 := snd (arrayActions (BatchPush l) st1) in
  ArrayActions.getItems st2 = ArrayActions.getItems st1 ++ validated st l /\
  snapshot st2 i = Some (ArrayActions.getItems st2) /\
  history st2 = history st /\
  HistoryActions.hasChanges st2
  = (Return (RBool (existsb is_nan (ArrayActions.getItems st2))), st2) /\
  (Forall (fun v => v <> VNaN) (ArrayActions.getItems st2) ->
   HistoryActions.hasChanges st2 = (Return (RBool false), st2)).
Proof.
  intros Hreach He.
  pose proof (entry_in_lookup st i e (reachable_store_ok st Hreach) He) as Hval.
  unfold HistoryActions.goTo, currentEntry, entryAt. run_m. rewrite He. run_m.
  cbv zeta. unfold arrayActions, recorded. simpl.
  unfold ArrayActions.batchPush, ArrayActions.getItems, mutate_items, live, snapshot.
  st_simpl. rewrite He. rewrite read_write_same by exact Hval.
  do 3 (split; [reflexivity |]).
  match goal with |- ?D /\ _ => assert (Hhc : D) end.
  { rewrite (hasChanges_returns _ (read (heap st) (HistoryEntry.items e)
                                   ++ validated st l)).
    - unfold live. st_simpl. rewrite read_write_same by exact Hval.
      pose proof (some_differs_prefix
                    (read (heap st) (HistoryEntry.items e) ++ validated st l) [])
        as Hsame.
      rewrite app_nil_r in Hsame.
      change (validated (notifySubscribers _ _ _) l) with (validated st l).
      rewrite Hsame. reflexivity.
    - unfold snapshot. st_simpl. rewrite He.
      rewrite read_write_same by exact Hval. reflexivity. }
  split; [exact Hhc |].
  intros Hno. rewrite (no_nan _ Hno) in Hhc. exact Hhc.
Qed.

Lemma batchPush_after_goTo_goes_unnoticed_witness :
  let st := run [Push [VNum 4]] (magicArray v123 None) in
  let st1 := exec (HistoryActions.goTo 0) st in
  let st2 := snd (arrayActions (BatchPush [VNum 9]) st1) in
  snapshot st 0 = Some v123 /\
  ArrayActions.getItems st2 = ArrayActions.getItems st1 ++ validated st [VNum 9] /\
  snapshot st2 0 = Some (ArrayActions.getItems st2) /\
  history st2 = history st /\
  HistoryActions.hasChanges st2
  = (Return (RBool (existsb is_nan (ArrayActions.getItems st2))), st2) /\
  (Forall (fun v => v <> VNaN) (ArrayActions.getItems st2) ->
   HistoryActions.hasChanges st2 = (Return (RBool false), st2)).
Proof.
  split; [reflexivity |].
  apply (batchPush_after_goTo_goes_unnoticed
           (run [Push [VNum 4]] (magicArray v123 None)) 0
           (HistoryEntry.mk 1 []) [VNum 9]).
  - apply reachable_array, reachable_fresh.
  - reflexivity.
Defined.

(** ** Checkpoints *)

Lemma find_saved_label label (cps : list Checkpoint.t) (its : list value) :
  Forall (fun cp => Checkpoint.label cp <> Some label) cps ->
  list_find (HistoryActions.has_label label) (cps ++ [Checkpoint.mk (Some label) its])
  = Some (length cps, Checkpoint.mk (Some label) its).
Proof.
  intros Hno. apply list_find_Some. repeat split.
  - rewrite lookup_app_r by lia.
    replace (length cps - length cps)%nat with 0%nat by lia. reflexivity.
  - intros j y Hy Hj. rewrite lookup_app_l in Hy by lia.
    rewrite Forall_lookup in Hno. exact (Hno _ _ Hy).
Qed.

Lemma get_insert_cursor (hs : list (option HistoryEntry.t)) (i : Z) e e' :
  JsArray.get hs i = Some (Some e) ->
  JsArray.get (<[Z.to_nat i := Some e']> hs) i = Some (Some e').
Proof.
  unfold JsArray.get. destruct (i <? 0); [discriminate |]. intros H.
  apply list_lookup_insert_eq. apply lookup_lt_Some in H. exact H.
Qed.

(** A checkpoint saved under a label that the current entry does not have
    yet brings the live items back: after [saveCheckpoint(label)], an
    unrecorded change ([batchPush]) and [restoreCheckpoint(label)], the live
    items are those at the time of saving. *)
Theorem restoreCheckpoint_after_save (st : State) (label : string)
  (e : HistoryEntry.t) (l : list value) :
  JsArray.get (history st) (historyIndex st) = Some (Some e) ->
  Forall (fun cp => Checkpoint.label cp <> Some label) (HistoryEntry.checkpoints e) ->
  let st1 := exec (HistoryActions.saveCheckpoint (Some label)) st in
  let st2 := snd (arrayActions (BatchPush l) st1) in
  exists st3,
    HistoryActions.restoreCheckpoint label st2 = (Return RUndefined, st3) /\
    ArrayActions.getItems st3 = ArrayActions.getItems st /\
    HistoryActions.listCheckpoints st3
    = (Return (RCheckpoints (HistoryEntry.checkpoints e
                             ++ [Checkpoint.mk (Some label) (ArrayActions.getItems st)])),
       st3).
Proof.
  intros He Hno.
  unfold HistoryActions.saveCheckpoint, HistoryActions.set_checkpoints,
    currentEntry, entryAt. run_m. rewrite He. run_m. rewrite He. run_m.
  cbv zeta. unfold arrayActions, recorded. simpl.
  unfold ArrayActions.batchPush, HistoryActions.restoreCheckpoint,
    HistoryActions.listCheckpoints, currentEntry, entryAt.
  run_m. unfold mutate_items. st_simpl.
  rewrite (get_insert_cursor _ _ e _ He).
  cbn [HistoryEntry.checkpoints].
  rewrite (find_saved_label label _ (live st) Hno).
  cbn [fmap option_fmap option_map snd Checkpoint.items]. run_m.
  eexists. split; [reflexivity |]. split.
  - unfold ArrayActions.getItems. st_simpl. apply live_assign_copy.
  - unfold assign_copy, alloc. st_simpl.
    rewrite (get_insert_cursor _ _ e _ He). reflexivity.
Qed.

Lemma restoreCheckpoint_after_save_witness :
  let st := magicArray v123 None in
  let st1 := exec (HistoryActions.saveCheckpoint (Some "a"%string)) st in
  let st2 := snd (arrayActions (BatchPush [VNum 4]) st1) in
  ArrayActions.getItems st2 = v123 ++ [VNum 4] /\
  exists st3,
    HistoryActions.restoreCheckpoint "a" st2 = (Return RUndefined, st3) /\
    ArrayActions.getItems st3 = ArrayActions.getItems st /\
    HistoryActions.listCheckpoints st3
    = (Return (RCheckpoints ([] ++ [Checkpoint.mk (Some "a"%string)
                                     (ArrayActions.getItems st)])), st3).
Proof.
  split; [reflexivity |].
  apply (restoreCheckpoint_after_save (magicArray v123 None) "a"
           (HistoryEntry.mk 1 []) [VNum 4]).
  - reflexivity.
  - constructor.
Defined.

(** Checkpoints belong to the entry they were saved at.  After
    [saveCheckpoint(label)] and a recorded call the cursor is on a new entry:
    [listCheckpoints()] is empty and [restoreCheckpoint(label)] restores
    nothing.  [undo()] goes back to the entry of the checkpoint, where it is
    listed again. *)
Theorem checkpoint_stays_with_its_entry (st : State) (label : string)
  (e : HistoryEntry.t) (c : Call) :
  reachable st ->
  history_ok st ->
  JsArray.get (history st) (historyIndex st) = Some (Some e) ->
  recorded c = true ->
  let saved := HistoryEntry.checkpoints e
               ++ [Checkpoint.mk (Some label) (ArrayActions.getItems st)] in
  let st1 := exec (HistoryActions.saveCheckpoint (Some label)) st in
  let st2 := snd (arrayActions c st1) in
  HistoryActions.listCheckpoints st1 = (Return (RCheckpoints saved), st1) /\
  HistoryActions.listCheckpoints st2 = (Return (RCheckpoints []), st2) /\
  (exists st3,
     HistoryActions.restoreCheckpoint label st2 = (Return RUndefined, st3) /\
     ArrayActions.getItems st3 = ArrayActions.getItems st2) /\
  (exists st4,
     HistoryActions.undo 1 st2 = (Return RUndefined, st4) /\
     HistoryActions.listCheckpoints st4 = (Return (RCheckpoints saved), st4)).
Proof.
  intros Hreach Hok He Hrec saved st1 st2.
  pose proof (reachable_store_ok st Hreach) as Hstore.
  pose proof Hok as [Hall Hcur].
  set (e1 := HistoryEntry.mk (HistoryEntry.items e) saved).
  assert (Hst1 : st1 = notifySubscribers "saveCheckpoint" (PCheckpoints saved)
                         (set_history (<[Z.to_nat (historyIndex st) := Some e1]>
                                         (history st)) st)).
  { unfold st1, HistoryActions.saveCheckpoint, HistoryActions.set_checkpoints,
      currentEntry, entryAt. run_m. rewrite He. run_m. rewrite He. reflexivity. }
  assert (Hget1 : JsArray.get (history st1) (historyIndex st1) = Some (Some e1)).
  { rewrite Hst1. st_simpl. apply (get_insert_cursor _ _ e _ He). }
  assert (Hreach1 : reachable st1) by apply (reachable_history (SaveCheckpoint _)), Hreach.
  assert (Hok1 : history_ok st1).
  { rewrite Hst1. apply (set_checkpoints_ok saved) in Hok.
    unfold HistoryActions.set_checkpoints in Hok. rewrite He in Hok. exact Hok. }
  assert (Hitems1 : (items st1 < length (heap st1))%nat)
    by apply (reachable_store_ok st1 Hreach1).
  destruct (recorded_call_end_state st1 c Hitems1 Hrec)
    as (_ & _ & _ & Hlist2 & _).
  destruct (recorded_call_fields c st1 Hrec (proj2 Hok1) Hitems1)
    as (ev & _ & _ & Hhs2 & Hidx2 & Hlast2 & _).
  cbv zeta in Hlist2, Hhs2, Hidx2, Hlast2. fold st2 in Hlist2, Hhs2, Hidx2, Hlast2.
  assert (Hcur1 : 0 <= historyIndex st1 < JsArray.len (history st1)) by apply Hok1.
  unfold JsArray.len in Hcur1.
  assert (Hok2 : history_ok st2).
  { split.
    - unfold entries_present. rewrite Hhs2. apply Forall_app. split.
      + apply Forall_take, Hok1.
      + repeat constructor. eauto.
    - unfold cursor_valid. lia. }
  split; [| split; [| split]].
  - unfold HistoryActions.listCheckpoints, currentEntry, entryAt. run_m.
    rewrite Hget1. reflexivity.
  - exact Hlist2.
  - unfold HistoryActions.listCheckpoints, HistoryActions.restoreCheckpoint,
      currentEntry, entryAt in *. run_m.
    destruct (JsArray.get (history st2) (historyIndex st2)) as [[e2 |] |];
      try discriminate.
    injection Hlist2 as Hlist2. rewrite Hlist2.
    cbn [list_find fmap option_fmap option_map]. run_m.
    eexists. split; reflexivity.
  - destruct (undo_fields st2 1 Hok2)
      as (e4 & st4 & He4 & Hu & _ & _ & Hhs4 & Hidx4 & _).
    exists st4. split; [exact Hu |].
    assert (Ht : undo_target 1 (historyIndex st2) = historyIndex st1).
    { unfold undo_target. rewrite Hidx2.
      destruct (Z.ltb_spec 0 (historyIndex st1 + 1)), (Z.ltb_spec 1 0); lia. }
    rewrite Ht in He4, Hidx4.
    rewrite Hhs2, get_nonneg in He4 by lia.
    rewrite lookup_app_l in He4 by (rewrite length_take; lia).
    rewrite lookup_take_lt in He4 by lia.
    rewrite get_nonneg in Hget1 by lia. rewrite Hget1 in He4.
    injection He4 as <-.
    unfold HistoryActions.listCheckpoints, currentEntry, entryAt. run_m.
    rewrite Hidx4, Hhs4, Hhs2, get_nonneg by lia.
    rewrite lookup_app_l by (rewrite length_take; lia).
    rewrite lookup_take_lt by lia. rewrite Hget1. reflexivity.
Qed.

Lemma checkpoint_stays_with_its_entry_witness :
  let st := magicArray v123 None in
  let saved := [Checkpoint.mk (Some "a"%string) v123] in
  let st1 := exec (HistoryActions.saveCheckpoint (Some "a"%string)) st in
  let st2 := snd (arrayActions (Push [VNum 5]) st1) in
  HistoryActions.listCheckpoints st1 = (Return (RCheckpoints saved), st1) /\
  HistoryActions.listCheckpoints st2 = (Return (RCheckpoints []), st2) /\
  (exists st3,
     HistoryActions.restoreCheckpoint "a" st2 = (Return RUndefined, st3) /\
     ArrayActions.getItems st3 = ArrayActions.getItems st2) /\
  (exists st4,
     HistoryActions.undo 1 st2 = (Return RUndefined, st4) /\
     HistoryActions.listCheckpoints st4 = (Return (RCheckpoints saved), st4)).
Proof.
  apply (checkpoint_stays_with_its_entry (magicArray v123 None) "a"
           (HistoryEntry.mk 1 []) (Push [VNum 5])).
  - apply reachable_fresh.
  - split; [vm_compute; repeat constructor; eauto |].
    vm_compute; split; [discriminate | reflexivity].
  - reflexivity.
  - reflexivity.
Defined.

(** [removeCheckpoint(label)] removes the oldest checkpoint with that label
    and no other: the checkpoints before and after it stay, in order, and
    the listeners get the new list. *)
Theorem removeCheckpoint_removes_oldest (st : State) (label : string)
  (e : HistoryEntry.t) (before after : list Checkpoint.t) (cp : Checkpoint.t) :
  JsArray.get (history st) (historyIndex st) = Some (Some e) ->
  HistoryEntry.checkpoints e = before ++ cp :: after ->
  Checkpoint.label cp = Some label ->
  Forall (fun cp' => Checkpoint.label cp' <> Some label) before ->
  exists st',
    HistoryActions.removeCheckpoint label st = (Return RUndefined, st') /\
    HistoryActions.listCheckpoints st'
    = (Return (RCheckpoints (before ++ after)), st') /\
    ArrayActions.getItems st' = ArrayActions.getItems st /\
    snapshot st' (historyIndex st') = snapshot st (historyIndex st) /\
    delivered st'
    = delivered st ++ [("removeCheckpoint"%string, PCheckpoints (before ++ after))].
Proof.
  intros He Hcps Hlabel Hno.
  assert (Hfind : list_find (HistoryActions.has_label label)
                    (HistoryEntry.checkpoints e) = Some (length before, cp)).
  { rewrite Hcps. apply list_find_Some. repeat split.
    - rewrite lookup_app_r by lia.
      replace (length before - length before)%nat with 0%nat by lia. reflexivity.
    - exact Hlabel.
    - intros j y Hy Hj. rewrite lookup_app_l in Hy by lia.
      rewrite Forall_lookup in Hno. exact (Hno _ _ Hy). }
  assert (Hdel : delete (length before) (HistoryEntry.checkpoints e) = before ++ after).
  { rewrite Hcps. apply delete_middle. }
  unfold HistoryActions.removeCheckpoint, HistoryActions.set_checkpoints,
    HistoryActions.listCheckpoints, currentEntry, entryAt, snapshot,
    ArrayActions.getItems. run_m.
  rewrite He, Hfind, Hdel. run_m. rewrite He. st_simpl.
  eexists. split; [reflexivity |]. st_simpl.
  rewrite (get_insert_cursor _ _ e _ He). repeat split.
Qed.

Lemma removeCheckpoint_removes_oldest_witness :
  let st := exec (HistoryActions.saveCheckpoint (Some "a"%string))
                 (snd (arrayActions (BatchPush [VNum 4])
                         (exec (HistoryActions.saveCheckpoint (Some "a"%string))
                               (magicArray v123 None)))) in
  exists st',
    HistoryActions.removeCheckpoint "a" st = (Return RUndefined, st') /\
    HistoryActions.listCheckpoints st'
    = (Return (RCheckpoints ([] ++ [Checkpoint.mk (Some "a"%string)
                                      (v123 ++ [VNum 4])])), st').
Proof.
  destruct (removeCheckpoint_removes_oldest
              (exec (HistoryActions.saveCheckpoint (Some "a"%string))
                 (snd (arrayActions (BatchPush [VNum 4])
                         (exec (HistoryActions.saveCheckpoint (Some "a"%string))
                               (magicArray v123 None)))))
              "a"
              (HistoryEntry.mk 1 [Checkpoint.mk (Some "a"%string) v123;
                                  Checkpoint.mk (Some "a"%string) (v123 ++ [VNum 4])])
              [] [Checkpoint.mk (Some "a"%string) (v123 ++ [VNum 4])]
              (Checkpoint.mk (Some "a"%string) v123))
    as (st' & Hr & Hl & _); try reflexivity; [constructor |].
  exists st'. split; assumption.
Defined.

(** ** clean *)

(** [clean] keeps entry 0, not the current entry, and leaves the live items
    alone.  So on an instance built by recorded calls, [clean()] followed by
    [undo], with any count, resets the live items to the initial ones. *)
Theorem undo_after_clean_restores_initial (initial : list value)
  (vf : option (value -> bool)) (cs : list Call) (times : Z) :
  Forall (fun c => recorded c = true) cs ->
  let st := run cs (magicArray initial vf) in
  let st1 := exec HistoryActions.clean st in
  ArrayActions.getItems st1 = ArrayActions.getItems st /\
  snapshot st1 0 = Some initial /\
  JsArray.len (history st1) = 1 /\
  exists st2,
    HistoryActions.undo times st1 = (Return RUndefined, st2) /\
    ArrayActions.getItems st2 = initial.
Proof.
  intros Hcs st st1.
  assert (Hlin : linear initial (length cs) st).
  { apply (linear_run initial cs 0 _ Hcs), magicArray_linear. }
  destruct Hlin as (Hitems & Hlen & Hidx & Hall & Hsep & H0 & Hlast).
  apply snapshot_inv in H0 as (e0 & _ & He0 & Hr0). simpl in He0.
  assert (Hhs1 : history st1 = [Some e0]).
  { unfold st1, HistoryActions.clean. run_m. rewrite resize_le by lia.
    destruct (history st) as [| x hs]; [discriminate |].
    simpl in He0. injection He0 as ->. reflexivity. }
  assert (Hheap1 : heap st1 = heap st) by reflexivity.
  assert (Hidx1 : historyIndex st1 = 0) by reflexivity.
  assert (Hok1 : history_ok st1).
  { split; [unfold entries_present | unfold cursor_valid, JsArray.len];
      rewrite Hhs1; [repeat constructor; eauto | rewrite Hidx1; simpl; lia]. }
  split; [reflexivity |].
  split; [unfold snapshot; rewrite Hhs1, Hheap1; simpl; congruence |].
  split; [rewrite Hhs1; reflexivity |].
  destruct (undo_fields st1 times Hok1)
    as (e & st2 & He & Hu & _ & _ & _ & _ & Hlive).
  exists st2. split; [exact Hu |].
  unfold ArrayActions.getItems. rewrite Hlive, Hheap1.
  assert (Ht : undo_target times (historyIndex st1) = 0).
  { rewrite Hidx1. reflexivity. }
  rewrite Ht, Hhs1 in He. injection He as <-. exact Hr0.
Qed.

Lemma undo_after_clean_restores_initial_witness :
  let st := run [Push [VNum 4]; Pop; Reverse] (magicArray v123 None) in
  let st1 := exec HistoryActions.clean st in
  ArrayActions.getItems st1 = ArrayActions.getItems st /\
  snapshot st1 0 = Some v123 /\
  JsArray.len (history st1) = 1 /\
  exists st2,
    HistoryActions.undo 1 st1 = (Return RUndefined, st2) /\
    ArrayActions.getItems st2 = v123.
Proof.
  apply (undo_after_clean_restores_initial v123 None [Push [VNum 4]; Pop; Reverse] 1).
  repeat constructor.
Defined.

(** ** limit with a size that is not positive *)

(** [limit(size)] with [size <= 0] on a history that has entries removes them
    all, sets the cursor to -1 and notifies ["limit"]; the live items stay. *)
Theorem limit_nonpositive_removes_everything (st : State) (size : Z) :
  size <= 0 ->
  history st <> [] ->
  exists st',
    HistoryActions.limit size st = (Return RUndefined, st') /\
    history st' = [] /\
    historyIndex st' = -1 /\
    ArrayActions.getItems st' = ArrayActions.getItems st /\
    delivered st' = delivered st ++ [("limit"%string, PHistory [])].
Proof.
  intros Hsize Hne.
  assert (Hlen : 0 < JsArray.len (history st)).
  { unfold JsArray.len. destruct (history st); [done | simpl; lia]. }
  unfold HistoryActions.limit. run_m.
  destruct (Z.ltb_spec size (JsArray.len (history st))); [| lia]. run_m.
  rewrite splice_oldest by lia.
  replace (Z.max size 0) with 0 by lia.
  rewrite drop_ge by (unfold JsArray.len; lia).
  eexists. split; [reflexivity |]. st_simpl. repeat split.
Qed.

Lemma limit_nonpositive_removes_everything_witness :
  let st := run [Push [VNum 4]] (magicArray v123 None) in
  exists st',
    HistoryActions.limit (-3) st = (Return RUndefined, st') /\
    history st' = [] /\
    historyIndex st' = -1 /\
    ArrayActions.getItems st' = ArrayActions.getItems st /\
    delivered st' = delivered st ++ [("limit"%string, PHistory [])].
Proof.
  apply (limit_nonpositive_removes_everything
           (run [Push [VNum 4]] (magicArray v123 None)) (-3)).
  - lia.
  - discriminate.
Defined.

(** ** import *)

(** A failed [import] is not atomic.  A text that is not JSON throws before
    anything is assigned.  A document that is no array (null, a boolean, a
    number, an object) throws a [TypeError] after [history.length = 0]: the
    history is empty, the cursor keeps its old value, nobody is notified,
    and a following [undo] throws. *)
Theorem import_failure_leaves_empty_history (st : State) (doc : json) :
  match doc with
  | JArr _ | JStr _ => False
  | _ => True
  end ->
  HistoryActions.import Malformed st = (Throw SyntaxError, st) /\
  HistoryActions.import (Text doc) st = (Throw TypeError, set_history [] st) /\
  forall times,
    fst (HistoryActions.undo times (exec (HistoryActions.import (Text doc)) st))
    = Throw TypeError.
Proof.
  intros Hdoc. split; [reflexivity |].
  assert (Himp : HistoryActions.import (Text doc) st
                 = (Throw TypeError, set_history [] st)).
  { destruct doc; try contradiction; reflexivity. }
  split; [exact Himp |].
  intros times. unfold exec. rewrite Himp. cbn [snd].
  unfold HistoryActions.undo, currentEntry, entryAt. run_m.
  unfold JsArray.get. destruct (_ <? 0); reflexivity.
Qed.

Lemma import_failure_leaves_empty_history_witness :
  let st := run [Push [VNum 4]] (magicArray v123 None) in
  HistoryActions.import Malformed st = (Throw SyntaxError, st) /\
  HistoryActions.import (Text (JNum 5)) st = (Throw TypeError, set_history [] st) /\
  forall times,
    fst (HistoryActions.undo times
           (exec (HistoryActions.import (Text (JNum 5))) st))
    = Throw TypeError.
Proof.
  apply (import_failure_leaves_empty_history
           (run [Push [VNum 4]] (magicArray v123 None)) (JNum 5)).
  exact I.
Defined.

(** What comes back from the export, element by element. *)
Lemma to_items_of_items_round (l : list value) :
  JSON.to_items (JSON.of_items l) = Some (json_round <$> l).
Proof.
  unfold JSON.to_items, JSON.of_items. apply mapM_Some_2.
  apply Forall2_fmap, Forall_Forall2_diag, Forall_forall.
  intros [] _; reflexivity.
Qed.

Lemma to_checkpoint_of_checkpoint_round (cp : Checkpoint.t) :
  JSON.to_checkpoint (JSON.of_checkpoint cp) = Some (json_round_checkpoint cp).
Proof.
  destruct cp as [[s |] its];
    unfold JSON.to_checkpoint, JSON.of_checkpoint, json_round_checkpoint;
    cbn [Checkpoint.label Checkpoint.items app].
  - change (JSON.field "items" _) with (Some (JSON.of_items its)).
    change (JSON.field "label" _) with (Some (JStr s)).
    cbv iota. rewrite to_items_of_items_round. reflexivity.
  - change (JSON.field "items" _) with (Some (JSON.of_items its)).
    change (JSON.field "label" _) with (@None json).
    cbv iota. rewrite to_items_of_items_round. reflexivity.
Qed.

Lemma to_entry_of_entry_round h e :
  JSON.to_entry (JSON.of_entry h e) = Some (json_round_entry (view_entry h e)).
Proof.
  destruct e as [[r cps] |]; [| reflexivity].
  unfold JSON.to_entry, JSON.of_entry, view_entry, json_round_entry.
  cbn [HistoryEntry.items HistoryEntry.checkpoints fmap option_fmap option_map fst snd].
  change (JSON.field "items" _) with (Some (JSON.of_items (read h r))).
  change (JSON.field "checkpoints" _) with (Some (JArr (JSON.of_checkpoint <$> cps))).
  cbv iota. rewrite to_items_of_items_round.
  assert (Hcps : mapM JSON.to_checkpoint (JSON.of_checkpoint <$> cps)
                 = Some (json_round_checkpoint <$> cps)).
  { apply mapM_Some_2. apply Forall2_fmap, Forall_Forall2_diag, Forall_forall.
    intros cp _. apply to_checkpoint_of_checkpoint_round. }
  rewrite Hcps. reflexivity.
Qed.

(** [import(toJSON())] in any state: it returns, and every entry reads as
    before except for the elements JSON cannot write, in the items and in the
    checkpoints: each [undefined], [NaN] and infinity has become [null] and
    each negative zero [0].  [null], booleans, integers and strings, the
    labels, the order of checkpoints and empty slots are as before, and the
    cursor is on the last entry. *)
Theorem import_toJSON_rounds_elements (st : State) :
  exists st',
    HistoryActions.import (HistoryActions.toJSON st) st = (Return RUndefined, st') /\
    view_history st' = json_round_entry <$> view_history st /\
    historyIndex st' = JsArray.len (history st') - 1 /\
    JsArray.len (history st') = JsArray.len (history st).
Proof.
  assert (Hparse : mapM JSON.to_entry (JSON.of_entry (heap st) <$> history st)
                   = Some (json_round_entry <$> view_history st)).
  { unfold view_history. apply mapM_Some_2.
    rewrite <- list_fmap_compose.
    apply Forall2_fmap, Forall_Forall2_diag, Forall_forall.
    intros e _. apply to_entry_of_entry_round. }
  unfold HistoryActions.import, HistoryActions.toJSON, JSON.stringify_history.
  run_m. cbn [JSON.parse]. rewrite Hparse. run_m.
  eexists. split; [reflexivity |]. st_simpl.
  destruct (adopt_fields (json_round_entry <$> view_history st) (set_history [] st))
    as (hs & hp & Hhs & Hh & Hview & _).
  st_simpl. simpl in Hhs. specialize (Hview []). rewrite app_nil_r in Hview.
  repeat apply conj.
  - unfold view_history at 1. st_simpl. rewrite Hhs, Hh. exact Hview.
  - reflexivity.
  - unfold JsArray.len. rewrite Hhs. f_equal.
    rewrite <- (length_fmap (view_entry (heap st ++ hp)) hs), Hview.
    unfold view_history. rewrite !length_fmap. reflexivity.
Qed.

(** ** serialize and deserialize *)

(** [deserialize(serialize())] returns without an error.  The live items
    come back with [null] for every [undefined], [NaN] and infinity and [0]
    for every negative zero, and as they were otherwise ([null], booleans,
    integers, strings), in a new array that no history entry shares; no
    history entry is recorded and the cursor stays; the listeners get
    ["deserialize"].  A text that is not JSON is reported on the console and
    changes nothing. *)
Theorem deserialize_serialize (st : State) :
  reachable st ->
  exists st',
    Serialization.deserialize (Serialization.serialize st) st = (Return Serialization.Silent, st') /\
    ArrayActions.getItems st' = json_round <$> ArrayActions.getItems st /\
    history st' = history st /\
    historyIndex st' = historyIndex st /\
    Forall (fun slot : option HistoryEntry.t =>
              match slot with
              | Some e => HistoryEntry.items e <> items st'
              | None => True
              end) (history st') /\
    delivered st'
    = delivered st ++ [("deserialize"%string,
                        PCopy (json_round <$> ArrayActions.getItems st))] /\
    Serialization.deserialize Malformed st
    = (Return (Serialization.ConsoleError SyntaxError), st).
Proof.
  intros Hreach. apply reachable_store_ok in Hreach as [_ Hin].
  unfold Serialization.deserialize, Serialization.serialize. cbn [JSON.parse].
  rewrite to_items_of_items_round.
  eexists. split; [reflexivity |].
  unfold ArrayActions.getItems. st_simpl.
  assert (Hlive : live (assign_copy (json_round <$> live st) st)
                  = json_round <$> live st) by apply live_assign_copy.
  repeat apply conj; try reflexivity.
  - exact Hlive.
  - unfold assign_copy, alloc. st_simpl.
    eapply Forall_impl; [exact Hin |]. intros [e |]; simpl; lia.
  - unfold notifyListeners. st_simpl. rewrite Hlive. reflexivity.
Qed.

Lemma deserialize_serialize_witness :
  let st := run [Push [VUndefined; VNaN; VNegZero]] (magicArray v123 None) in
  exists st',
    Serialization.deserialize (Serialization.serialize st) st
    = (Return Serialization.Silent, st') /\
    ArrayActions.getItems st' = v123 ++ [VNull; VNull; VNum 0] /\
    history st' = history st.
Proof.
  destruct (deserialize_serialize
              (run [Push [VUndefined; VNaN; VNegZero]] (magicArray v123 None)))
    as (st' & Hd & Hl & Hh & _).
  - apply reachable_array, reachable_fresh.
  - exists st'. split; [exact Hd |]. split; [rewrite Hl; reflexivity | exact Hh].
Defined.

(** ** deepFlatten and toCSV *)

Lemma foldl_append {A B} (g : B -> list A) (l : list B) : forall acc,
  foldl (fun acc v => acc ++ g v) acc l
  = acc ++ foldl (fun acc v => acc ++ g v) [] l.
Proof.
  induction l as [| x l IH]; intros acc; simpl.
  - rewrite app_nil_r. reflexivity.
  - rewrite IH, (IH (g x)), app_assoc. reflexivity.
Qed.

Lemma deepFlatten_cons (val : anyval) (arr : list anyval) :
  Csv.deepFlatten (val :: arr)
  = (if Csv.isArray val
     then match val with AArray l => Csv.deepFlatten l | _ => [] end
     else [val]) ++ Csv.deepFlatten arr.
Proof.
  unfold Csv.deepFlatten at 1. simpl. rewrite foldl_append.
  destruct val; reflexivity.
Qed.

Lemma deepFlatten_app (a b : list anyval) :
  Csv.deepFlatten (a ++ b) = Csv.deepFlatten a ++ Csv.deepFlatten b.
Proof.
  unfold Csv.deepFlatten. rewrite foldl_app, foldl_append. reflexivity.
Qed.

Lemma flatten_value_leaves (v : anyval) :
  Forall (fun x => Csv.isArray x = false) (Csv.flatten_value v).
Proof.
  induction v as [p | | l IH] using anyval_induction.
  - repeat constructor.
  - repeat constructor.
  - change (Csv.flatten_value (AArray l)) with (Csv.deepFlatten l).
    induction IH as [| x l Hx _ IHl]; [constructor |].
    change (x :: l) with ([x] ++ l). rewrite deepFlatten_app.
    apply Forall_app. split; [| exact IHl].
    unfold Csv.deepFlatten. simpl. exact Hx.
Qed.

Lemma deepFlatten_leaves_id (arr : list anyval) :
  Forall (fun x => Csv.isArray x = false) arr -> Csv.deepFlatten arr = arr.
Proof.
  induction 1 as [| x l Hx _ IH]; [reflexivity |].
  rewrite deepFlatten_cons, Hx, IH. reflexivity.
Qed.

(** [deepFlatten]: an element that is an array is replaced by its own
    flattening, any other element is kept; so the result holds no array at
    any depth of the input, an array without nested arrays comes back as it
    is, flattening twice changes nothing, and flattening distributes over
    concatenation. *)
Theorem deepFlatten_flattens (arr rest : list anyval) :
  Forall (fun x => Csv.isArray x = false) (Csv.deepFlatten arr) /\
  Csv.deepFlatten (Csv.deepFlatten arr) = Csv.deepFlatten arr /\
  Csv.deepFlatten (AArray arr :: rest) = Csv.deepFlatten arr ++ Csv.deepFlatten rest /\
  Csv.deepFlatten (arr ++ rest) = Csv.deepFlatten arr ++ Csv.deepFlatten rest /\
  Csv.toCSV [AArray arr] ","%string = Csv.toCSV arr ","%string.
Proof.
  assert (Hflat : Forall (fun x => Csv.isArray x = false) (Csv.deepFlatten arr))
    by apply (flatten_value_leaves (AArray arr)).
  repeat apply conj.
  - exact Hflat.
  - apply deepFlatten_leaves_id, Hflat.
  - rewrite deepFlatten_cons. reflexivity.
  - apply deepFlatten_app.
  - unfold Csv.toCSV. rewrite deepFlatten_cons. simpl. rewrite app_nil_r. reflexivity.
Qed.

Lemma history_values_present (hs : list (option HistoryEntry.t)) :
  Forall is_Some hs ->
  Csv.history_values hs = Some (replicate (length hs) AObject).
Proof.
  intros H. unfold Csv.history_values. apply mapM_Some_2.
  induction H as [| x l [e ->] _ IH]; simpl; constructor; [reflexivity | exact IH].
Qed.

(** [history.toCSV(delimiter)] when every slot holds an entry: the entries
    are objects, which [deepFlatten] keeps and [join] writes as
    ["[object Object]"].  The text has that once per entry, separated by the
    delimiter (["," ] when none is given): it depends on the number of
    entries and on nothing they hold. *)
Theorem history_toCSV_ignores_contents (st : State) (delimiter : option string) :
  entries_present st ->
  Csv.history_toCSV delimiter st
  = Some (String.concat (default ","%string delimiter)
            (replicate (length (history st)) "[object Object]"%string)).
Proof.
  intros Hall. unfold Csv.history_toCSV.
  rewrite (history_values_present _ Hall). cbn [fmap option_fmap option_map].
  f_equal. unfold Csv.toCSV, Csv.join.
  rewrite deepFlatten_leaves_id.
  - f_equal. induction (length (history st)) as [| n IH]; [reflexivity |].
    simpl. rewrite IH. reflexivity.
  - apply Forall_replicate. reflexivity.
Qed.

Lemma history_toCSV_ignores_contents_witness :
  Csv.history_toCSV None (run [Push [VNum 4]; Pop] (magicArray v123 None))
  = Some "[object Object],[object Object],[object Object]"%string.
Proof.
  rewrite (history_toCSV_ignores_contents
             (run [Push [VNum 4]; Pop] (magicArray v123 None)) None).
  - reflexivity.
  - vm_compute. repeat constructor; eauto.
Defined.

(** ** The lazy wrapper *)

Lemma run_cons (c : Call) (cs : list Call) (st : State) :
  run (c :: cs) st = run cs (snd (arrayActions c st)).
Proof. reflexivity. Qed.

Lemma replay_known (cs : list Call) (rest : list Lazy.Action) : forall r st,
  exists r',
    Lazy.replay ((Lazy.Known <$> cs) ++ rest) r st
    = Lazy.replay rest r' (run cs st) /\
    (cs = [] -> r' = r) /\
    (forall cs' c, cs = cs' ++ [c] -> r' = fst (arrayActions c (run cs' st))).
Proof.
  induction cs as [| c cs IH]; intros r st.
  - exists r. split; [reflexivity |]. split; [reflexivity |].
    intros [| ? ?] c0 H; discriminate H.
  - cbn [fmap list_fmap app Lazy.replay]. rewrite run_cons.
    destruct (arrayActions c st) as [r1 st1] eqn:E. cbn [snd].
    destruct (IH r1 st1) as (r' & Hrep & Hnil & Hlast).
    exists r'. split; [exact Hrep |]. split; [discriminate |].
    intros cs' c0 Hcs. destruct cs' as [| c1 cs''].
    + simpl in Hcs. injection Hcs as Hc Hcs. subst c0 cs.
      rewrite (Hnil eq_refl). change (run [] st) with st. rewrite E. reflexivity.
    + simpl in Hcs. injection Hcs as Hc Hcs. subst c1 cs.
      rewrite (Hlast cs'' c0 eq_refl). rewrite run_cons, E. reflexivity.
Qed.

(** Calls chained on the lazy wrapper and then evaluated do what the same
    calls do when made directly, in the same order: [evaluate] returns the
    result of the last call (a copy of the live items when nothing was
    queued), leaves the state the direct calls leave, and empties the queue. *)
Theorem lazy_evaluate_runs_the_chain (cs : list Call) (st : State) :
  let queue := foldl (fun q c => Lazy.record (Lazy.Known c) q) [] cs in
  exists r,
    Lazy.evaluate queue st = (Return r, run cs st, []) /\
    (cs = [] -> r = RArray (ArrayActions.getItems st)) /\
    (forall cs' c, cs = cs' ++ [c] -> r = fst (arrayActions c (run cs' st))).
Proof.
  cbv zeta.
  assert (Hq : forall q, foldl (fun q c => Lazy.record (Lazy.Known c) q) q cs
                         = q ++ (Lazy.Known <$> cs)).
  { induction cs as [| c cs IH]; intros q; simpl.
    - rewrite app_nil_r. reflexivity.
    - rewrite IH. unfold Lazy.record. rewrite <- app_assoc. reflexivity. }
  rewrite Hq. cbn [app]. unfold Lazy.evaluate.
  destruct (replay_known cs [] (RArray (ArrayActions.getItems st)) st)
    as (r & Hrep & Hnil & Hlast).
  rewrite app_nil_r in Hrep. rewrite Hrep. cbn [Lazy.replay].
  exists r. repeat split; assumption.
Qed.

(** A queued name that is no method makes [evaluate] throw a [TypeError]
    when the replay reaches it.  The calls queued before it have taken
    effect, and the queue is not emptied: evaluating again makes those calls
    a second time. *)
Theorem lazy_evaluate_unknown_method (cs : list Call) (method : string)
  (rest : list Lazy.Action) (st : State) :
  let queue := (Lazy.Known <$> cs) ++ Lazy.Unknown method :: rest in
  Lazy.evaluate queue st = (Throw TypeError, run cs st, queue) /\
  Lazy.evaluate queue (run cs st) = (Throw TypeError, run cs (run cs st), queue).
Proof.
  cbv zeta. unfold Lazy.evaluate.
  destruct (replay_known cs (Lazy.Unknown method :: rest)
              (RArray (ArrayActions.getItems st)) st) as (r & -> & _).
  destruct (replay_known cs (Lazy.Unknown method :: rest)
              (RArray (ArrayActions.getItems (run cs st))) (run cs st))
    as (r2 & -> & _).
  split; reflexivity.
Qed.

(** ** The listener registry *)

Lemma find_first_occurrence (listener : nat) (before after : list nat) :
  listener ∉ before ->
  list_find (fun l => l = listener) (before ++ listener :: after)
  = Some (length before, listener).
Proof.
  intros Hnot. apply list_find_Some. repeat split.
  - rewrite lookup_app_r by lia.
    replace (length before - length before)%nat with 0%nat by lia. reflexivity.
  - intros j y Hy Hj -> . rewrite lookup_app_l in Hy by lia.
    apply Hnot. eapply list_elem_of_lookup_2. exact Hy.
Qed.

(** [addListener] calls the new listener once, with ["initialize"] and a copy
    of the live items, and nobody else.  The function it returns removes the
    oldest registration of that listener: when the listener was not
    registered before, the registry is as it was; when it was (through
    [history.subscribe] or an earlier [addListener]), the older registration
    goes and the listener is still called on every broadcast. *)
Theorem remove_takes_oldest_registration (listener : nat) (st : State)
  (listeners : list nat) :
  let '(registered, calls) := Listeners.addListener listener st listeners in
  calls = [(listener, ("initialize"%string, PCopy (ArrayActions.getItems st)))] /\
  (listener ∉ listeners -> Listeners.remove listener registered = listeners) /\
  (forall before after n,
     listeners = before ++ listener :: after -> listener ∉ before ->
     Listeners.remove listener registered = before ++ after ++ [listener] /\
     (listener, n) ∈ Listeners.broadcast (Listeners.remove listener registered) n).
Proof.
  unfold Listeners.addListener. split; [reflexivity |]. split.
  - intros Hnot. unfold Listeners.remove.
    rewrite (find_first_occurrence listener listeners [] Hnot).
    rewrite delete_middle. apply app_nil_r.
  - intros before after n -> Hnot.
    assert (Hrem : Listeners.remove listener ((before ++ listener :: after) ++ [listener])
                   = before ++ after ++ [listener]).
    { unfold Listeners.remove. rewrite <- app_assoc. cbn [app].
      rewrite (find_first_occurrence listener before (after ++ [listener]) Hnot).
      apply delete_middle. }
    split; [exact Hrem |]. rewrite Hrem. unfold Listeners.broadcast.
    apply list_elem_of_fmap. exists listener. split; [reflexivity |].
    rewrite !elem_of_app. right. right. constructor.
Qed.

(** ** The undo/redo law from any synced state *)

Lemma synced_fresh initial vf : synced (magicArray initial vf).
Proof.
  split; [apply store_ok_magicArray |].
  split; [exact (linear_history_ok _ _ _ (magicArray_linear initial vf)) |].
  split; [repeat constructor; simpl; lia | reflexivity].
Qed.

(** [undo] and [redo] leave a synced state. *)
Lemma synced_after_undo (st : State) (times : Z) :
  store_ok st -> history_ok st ->
  synced (exec (HistoryActions.undo times) st) /\
  synced (exec (HistoryActions.redo times) st).
Proof.
  intros Hstore Hok. pose proof Hstore as [_ Hin]. pose proof Hok as [Hall Hcur].
  unfold cursor_valid in Hcur.
  destruct (undo_fields st times Hok)
    as (e & st1 & He & Hu & Hh & Hi & Hhs & Hidx & Hlive).
  destruct (redo_fields st times Hok)
    as (e' & st2 & He' & Hr & Hh' & Hi' & Hhs' & Hidx' & Hlive').
  pose proof (undo_target_range times (historyIndex st) (proj1 Hcur)).
  pose proof (redo_target_range times (historyIndex st)
                (JsArray.len (history st) - 1)).
  unfold exec. rewrite Hu, Hr. cbn [snd].
  split; (split; [| split; [| split]]).
  - apply (store_ok_historyActions (Undo times)) in Hstore.
    unfold exec in Hstore. simpl historyActions in Hstore. rewrite Hu in Hstore.
    exact Hstore.
  - split; [unfold entries_present | unfold cursor_valid]; rewrite Hhs;
      [exact Hall | lia].
  - rewrite Hhs, Hi. eapply Forall_impl; [exact Hin |]. intros [x |]; simpl; lia.
  - unfold snapshot. rewrite Hhs, Hidx, He, Hlive, Hh. f_equal.
    unfold read. rewrite lookup_app_l; [reflexivity |].
    exact (entry_in_lookup st _ e Hstore He).
  - apply (store_ok_historyActions (Redo times)) in Hstore.
    unfold exec in Hstore. simpl historyActions in Hstore. rewrite Hr in Hstore.
    exact Hstore.
  - split; [unfold entries_present | unfold cursor_valid]; rewrite Hhs';
      [exact Hall | lia].
  - rewrite Hhs', Hi'. eapply Forall_impl; [exact Hin |]. intros [x |]; simpl; lia.
  - unfold snapshot. rewrite Hhs', Hidx', He', Hlive', Hh'. f_equal.
    unfold read. rewrite lookup_app_l; [reflexivity |].
    exact (entry_in_lookup st _ e' Hstore He').
Qed.

(** A recorded call in a synced state: the state stays synced, the cursor is
    one further and on the last entry, and the snapshots up to the old cursor
    are as before. *)
Lemma synced_step (st : State) (c : Call) :
  synced st -> recorded c = true ->
  let st' := snd (arrayActions c st) in
  synced st' /\
  historyIndex st' = historyIndex st + 1 /\
  JsArray.len (history st') = historyIndex st' + 1 /\
  forall i, 0 <= i <= historyIndex st -> snapshot st' i = snapshot st i.
Proof.
  intros (Hstore & Hok & Hsep & Hsync) Hrec.
  pose proof Hstore as [Hval Hin]. pose proof Hok as [Hall Hcur].
  destruct (recorded_call_fields c st Hrec Hcur Hval)
    as (ev & Hh & Hi & Hhs & Hidx & Hlast & Hsnap & _).
  cbv zeta in *. set (st' := snd (arrayActions c st)) in *.
  unfold cursor_valid, JsArray.len in Hcur.
  assert (Hlenh : length (heap st') = S (length (heap st))).
  { rewrite Hh, length_app, length_write. simpl. lia. }
  repeat apply conj.
  - rewrite Hi, Hlenh. lia.
  - rewrite Hhs, Hlenh. apply Forall_app. split.
    + apply Forall_take. eapply entries_in_mono; [| exact Hin]. lia.
    + constructor; [simpl; lia | constructor].
  - unfold entries_present. rewrite Hhs. apply Forall_app. split.
    + apply Forall_take. exact Hall.
    + repeat constructor. eauto.
  - lia.
  - lia.
  - rewrite Hhs, Hi. apply Forall_app. split.
    + apply Forall_take. exact Hsep.
    + constructor; [simpl; lia | constructor].
  - exact Hsnap.
  - exact Hidx.
  - lia.
  - intros i Hi'. unfold snapshot. rewrite Hhs. rewrite !get_nonneg by lia.
    rewrite lookup_app_l by (rewrite length_take; lia).
    rewrite lookup_take_lt by lia.
    destruct (history st !! Z.to_nat i) as [[e |] |] eqn:Ei; try reflexivity.
    f_equal. rewrite Forall_lookup in Hin, Hsep.
    pose proof (Hin _ _ Ei) as Hv. pose proof (Hsep _ _ Ei) as Hne. simpl in Hv.
    rewrite Hh. unfold read.
    rewrite lookup_app_l by (rewrite length_write; exact Hv).
    unfold write. rewrite list_lookup_insert_ne by congruence. reflexivity.
Qed.

Lemma synced_run (cs : list Call) : forall st (base : Z) (first : list value),
  synced st ->
  0 <= base <= historyIndex st ->
  snapshot st base = Some first ->
  Forall (fun c => recorded c = true) cs ->
  synced (run cs st) /\
  historyIndex (run cs st) = historyIndex st + Z.of_nat (length cs) /\
  snapshot (run cs st) base = Some first /\
  (cs <> [] -> JsArray.len (history (run cs st)) = historyIndex (run cs st) + 1).
Proof.
  induction cs as [| c cs IH]; intros st base first Hsync Hbase Hfirst Hcs.
  - simpl. split; [exact Hsync |]. split; [lia |]. split; [exact Hfirst | done].
  - inversion Hcs as [| ? ? Hc Hcs']; subst.
    destruct (synced_step st c Hsync Hc) as (Hsync' & Hidx' & Hlen' & Hkeep).
    cbv zeta in *. rewrite run_cons.
    destruct (IH (snd (arrayActions c st)) base first Hsync')
      as (Hs & Hi & Hf & Hl); [lia | rewrite Hkeep by lia; exact Hfirst | exact Hcs' |].
    split; [exact Hs |]. split; [rewrite Hi, Hidx'; simpl length; lia |].
    split; [exact Hf |]. intros _. destruct cs as [| c' cs']; [exact Hlen' | apply Hl; discriminate].
Qed.

(** The undo/redo law holds from every synced state, not only from a fresh
    instance: after n recorded calls, [undo(n)] brings back the live items
    and the cursor from before the calls, and [redo(n)] the live items after
    them. *)
Theorem undo_redo_inverse_from_synced (st : State) (cs : list Call) :
  synced st ->
  Forall (fun c => recorded c = true) cs ->
  let n := Z.of_nat (length cs) in
  let st' := run cs st in
  exists st1 st2,
    HistoryActions.undo n st' = (Return RUndefined, st1) /\
    ArrayActions.getItems st1 = ArrayActions.getItems st /\
    historyIndex st1 = historyIndex st /\
    HistoryActions.redo n st1 = (Return RUndefined, st2) /\
    ArrayActions.getItems st2 = ArrayActions.getItems st' /\
    historyIndex st2 = historyIndex st'.
Proof.
  intros Hsync Hcs n st'.
  pose proof Hsync as (_ & [_ Hcur] & _ & Hsnap). unfold cursor_valid in Hcur.
  destruct (synced_run cs st (historyIndex st) (live st) Hsync ltac:(lia) Hsnap Hcs)
    as (Hsync' & Hidx' & Hfirst & Hlen').
  fold st' in Hsync', Hidx', Hfirst, Hlen'. fold n in Hidx'.
  pose proof Hsync' as (Hstore' & Hok' & _ & Hsnap').
  destruct (undo_fields st' n Hok')
    as (e & st1 & He & Hu & Hh1 & Hi1 & Hhs1 & Hidx1 & Hlive1).
  assert (Ht : undo_target n (historyIndex st') = historyIndex st).
  { rewrite Hidx'. unfold undo_target.
    destruct (Z.ltb_spec 0 (historyIndex st + n)), (Z.ltb_spec n 0); lia. }
  rewrite Ht in He, Hidx1.
  assert (Hok1 : history_ok st1).
  { destruct Hok' as [Hall' Hcur']. unfold cursor_valid in Hcur'.
    split; [unfold entries_present | unfold cursor_valid]; rewrite Hhs1;
      [exact Hall' | lia]. }
  destruct (redo_fields st1 n Hok1)
    as (e2 & st2 & He2 & Hr & _ & _ & _ & Hidx2 & Hlive2).
  assert (Ht2 : redo_target n (historyIndex st1) (JsArray.len (history st1) - 1)
                = historyIndex st').
  { rewrite Hidx1, Hhs1, Hidx'. unfold redo_target.
    destruct cs as [| c cs0].
    - subst n st'. change (run [] st) with st in *.
      change (Z.of_nat (length (@nil Call))) with 0 in *.
      destruct (Z.ltb_spec (historyIndex st) (JsArray.len (history st) - 1)),
        (Z.ltb_spec 0 0); lia.
    - rewrite (Hlen' ltac:(discriminate)), Hidx'.
      destruct (Z.ltb_spec (historyIndex st) (historyIndex st + n + 1 - 1)),
        (Z.ltb_spec n 0); lia. }
  rewrite Ht2, Hhs1 in He2.
  exists st1, st2. unfold ArrayActions.getItems.
  repeat apply conj; [exact Hu | | exact Hidx1 | exact Hr | | congruence].
  - rewrite Hlive1. unfold snapshot in Hfirst. rewrite He in Hfirst. congruence.
  - rewrite Hlive2, Hh1. unfold snapshot in Hsnap'. rewrite He2 in Hsnap'.
    unfold read at 1. rewrite lookup_app_l.
    + fold (read (heap st') (HistoryEntry.items e2)). congruence.
    + exact (entry_in_lookup st' _ e2 Hstore' He2).
Qed.

Lemma undo_redo_inverse_from_synced_witness :
  let st := exec (HistoryActions.undo 1)
                 (run [Push [VNum 4]; Push [VNum 5]] (magicArray v123 None)) in
  let st' := run [Pop; Unshift [VNum 0]] st in
  ArrayActions.getItems st = v123 ++ [VNum 4] /\
  exists st1 st2,
    HistoryActions.undo 2 st' = (Return RUndefined, st1) /\
    ArrayActions.getItems st1 = ArrayActions.getItems st /\
    historyIndex st1 = historyIndex st /\
    HistoryActions.redo 2 st1 = (Return RUndefined, st2) /\
    ArrayActions.getItems st2 = ArrayActions.getItems st' /\
    historyIndex st2 = historyIndex st'.
Proof.
  split; [reflexivity |].
  apply (undo_redo_inverse_from_synced
           (exec (HistoryActions.undo 1)
                 (run [Push [VNum 4]; Push [VNum 5]] (magicArray v123 None)))
           [Pop; Unshift [VNum 0]]).
  - apply synced_after_undo.
    + apply reachable_store_ok. do 2 apply reachable_array. apply reachable_fresh.
    + split; [vm_compute; repeat constructor; eauto |].
      vm_compute; split; [discriminate | reflexivity].
  - repeat constructor.
Defined.

Lemma reachable_goTo_aliases_witness :
  let st := run [Push [VNum 4]] (magicArray v123 None) in
  let st2 := snd (arrayActions Reverse (exec (HistoryActions.goTo 0) st)) in
  snapshot st 0 = Some v123 /\
  snapshot st2 0 = Some (ArrayActions.getItems st2).
Proof.
  split; [reflexivity |].
  apply (reachable_goTo_aliases (run [Push [VNum 4]] (magicArray v123 None)) 0
           (HistoryEntry.mk 1 []) Reverse).
  - apply reachable_array, reachable_fresh.
  - reflexivity.
  - reflexivity.
Defined.
